(** * CORS scanner (main.go): a shallow embedding and its verified properties

    The Go program probes HTTP endpoints with a spoofed [Origin] header and
    records which CORS response headers come back.  This development embeds
    [testCORS], [testBulkCORS], [printSummary], [isCORSHeader], [isValidURL]
    and the parts of [main] that decide what is scanned and written.

    Conventions.
    - Go strings are byte sequences: [string] (a list of 8-bit [ascii]).
    - Go [int] values are [Z]; a Go [error] is its message text.
    - A map that can be nil is an [option (gmap _ _)], a slice whose
      nil-ness matters is an [option (list _)]; [None] is Go's nil.
    - The Go standard library and the network are not part of the
      repository: the functions of [net/url], [net/http] and [unicode] that
      the program calls are the fields of the class [GoStdlib], and the
      answer of the network to a request is an argument ([Transport]).
    - [range] over a Go map visits the entries in an unspecified order; the
      model visits them in the order of [map_to_list], and no statement
      below depends on that order.
    - Goroutines are modelled by an interleaving step function over an
      explicit scheduler event. *)

From stdpp Require Import gmap strings list relations pretty.
From Stdlib Require Import ZArith Lia Ascii.

Open Scope string_scope.
Open Scope list_scope.

(** ** Control effects: normal return, panic, [log.Fatal] *)

Inductive Outcome (A : Type) : Type :=
| Ret (a : A)             (* the call returns [a] *)
| Panic (msg : string)    (* a run-time panic unwinds the goroutine *)
| Fatal (msg : string).   (* [log.Fatal]: the message is logged, then [os.Exit(1)] *)
Arguments Ret {A} a.
Arguments Panic {A} msg.
Arguments Fatal {A} msg.

Definition outcome_bind {A B} (f : A → Outcome B) (m : Outcome A) : Outcome B :=
  match m with
  | Ret a => f a
  | Panic msg => Panic msg
  | Fatal msg => Fatal msg
  end.

#[global] Instance Outcome_ret : MRet Outcome := @Ret.
#[global] Instance Outcome_bind : MBind Outcome := @outcome_bind.

(** [for _, x := range l { acc = body(acc, x) }] where the body may panic. *)
Fixpoint foldM {A B} (body : A → B → Outcome A) (acc : A) (l : list B) : Outcome A :=
  match l with
  | [] => Ret acc
  | x :: l' => acc' ← body acc x; foldM body acc' l'
  end.

(** A Go [(T, error)] pair. *)
Inductive result (A : Type) : Type :=
| Ok (a : A)
| Err (e : string).
Arguments Ok {A} a.
Arguments Err {A} e.

(** ** Package [strings] *)

Definition byte_val (c : ascii) : N := Ascii.N_of_ascii c.

(** [c >= utf8.RuneSelf] is false. *)
Definition isASCIIByte (c : ascii) : bool := (byte_val c <? 128)%N.

Fixpoint isASCII (s : string) : bool :=
  match s with
  | EmptyString => true
  | String c s' => isASCIIByte c && isASCII s'
  end.

(** ['A' <= c && c <= 'Z'] then [c += 'a' - 'A']. *)
Definition lowerByte (c : ascii) : ascii :=
  if ((65 <=? byte_val c) && (byte_val c <=? 90))%N
  then Ascii.ascii_of_N (byte_val c + 32)
  else c.

Fixpoint lowerBytes (s : string) : string :=
  match s with
  | EmptyString => EmptyString
  | String c s' => String (lowerByte c) (lowerBytes s')
  end.

(** [strings.HasPrefix]. *)
Fixpoint HasPrefix (s prefix : string) {struct prefix} : bool :=
  match prefix, s with
  | EmptyString, _ => true
  | String p prefix', String c s' => bool_decide (p = c) && HasPrefix s' prefix'
  | String _ _, EmptyString => false
  end.

(** [strings.Contains(s, substr)]: [substr] occurs at some offset of [s]. *)
Fixpoint Contains (s substr : string) : bool :=
  HasPrefix s substr ||
  match s with
  | EmptyString => false
  | String _ s' => Contains s' substr
  end.

(** [strings.Join(elems, sep)]. *)
Fixpoint Join (elems : list string) (sep : string) : string :=
  match elems with
  | [] => ""
  | [e] => e
  | e :: rest => e +:+ sep +:+ Join rest sep
  end.

(** [strings.LastIndex(s, sep)] for a one-byte [sep], scanning from offset
    [i] with [last] the latest hit so far; [-1] when there is none. *)
Fixpoint lastIndexFrom (i last : Z) (s : string) (sep : ascii) : Z :=
  match s with
  | EmptyString => last
  | String c s' =>
      lastIndexFrom (i + 1) (if bool_decide (c = sep) then i else last) s' sep
  end.

Definition LastIndexByte (s : string) (sep : ascii) : Z := lastIndexFrom 0 (-1) s sep.

(** [strings.TrimSuffix(s, suffix)] for a one-byte [suffix]. *)
Fixpoint TrimSuffixByte (s : string) (suffix : ascii) : string :=
  match s with
  | EmptyString => EmptyString
  | String c EmptyString => if bool_decide (c = suffix) then EmptyString else s
  | String c s' => String c (TrimSuffixByte s' suffix)
  end.

(** The [asciiSpace] table of package [strings]: tab, newline, vertical tab,
    form feed, carriage return, space. *)
Definition asciiSpace (c : ascii) : bool :=
  let n := byte_val c in
  ((n =? 9) || (n =? 10) || (n =? 11) || (n =? 12) || (n =? 13) || (n =? 32))%N.

(** The second loop of [strings.TrimSpace]: walk back from the end over
    ASCII spaces.  Returns [s[:stop]] and whether the walk was cut short by
    a non-ASCII byte (the caller then hands [s[:stop]] to the Unicode-aware
    right trim). *)
Fixpoint dropRightASCII (s : string) : string * bool :=
  match s with
  | EmptyString => (EmptyString, false)
  | String c s' =>
      match dropRightASCII s' with
      | (EmptyString, _) =>
          if negb (isASCIIByte c) then (String c EmptyString, true)
          else if asciiSpace c then (EmptyString, false)
          else (String c EmptyString, false)
      | (t, cut) => (String c t, cut)
      end
  end.

(** ** The standard-library and runtime functions the program relies on *)

(** The fields of [url.URL] that a request carries. *)
Record url_URL := mkURL {
  Scheme : string;
  Host : string;
  Path : string;
  RawQuery : string;
}.

Class GoStdlib := {
  (** [net/url.Parse] *)
  url_Parse : string → result url_URL;
  (** [net/http]'s method-token check inside [NewRequest] *)
  validMethod : string → bool;
  (** [strconv.Quote], the [%q] verb of [fmt] *)
  strconv_Quote : string → string;
  (** [textproto.CanonicalMIMEHeaderKey], applied by [Header.Set] *)
  CanonicalMIMEHeaderKey : string → string;
  (** [strings.Map(unicode.ToLower, s)], the path [strings.ToLower] takes
      on a string with a non-ASCII byte *)
  unicode_ToLower : string → string;
  (** [strings.TrimFunc(s, unicode.IsSpace)] *)
  unicode_TrimSpace : string → string;
  (** [strings.TrimRightFunc(s, unicode.IsSpace)] *)
  unicode_TrimRightSpace : string → string;
}.

Section Program.
Context `{GoStdlib}.

(** [strings.ToLower]: byte-wise on ASCII strings, Unicode-aware otherwise. *)
Definition ToLower (s : string) : string :=
  if isASCII s then lowerBytes s else unicode_ToLower s.

(** [strings.TrimSpace]: the ASCII fast path from the left, then from the
    right, with the Unicode fallbacks where a non-ASCII byte is met. *)
Fixpoint TrimSpace (s : string) : string :=
  match s with
  | EmptyString => EmptyString
  | String c s' =>
      if negb (isASCIIByte c) then unicode_TrimSpace s
      else if asciiSpace c then TrimSpace s'
      else match dropRightASCII s with
           | (t, true) => unicode_TrimRightSpace t
           | (t, false) => t
           end
  end.

(** ** Data model (main.go, lines 16-31) *)

Record CORSTestResult := mkResult {
  URL : string;
  StatusCode : Z;
  Headers : option (gmap string string);   (* [None]: nil map *)
  Error : string;
  HasCORS : bool;
  CORSHeaders : option (list string);      (* [None]: nil slice *)
  Timestamp : string;
}.

Record Config := mkConfig {
  Method : string;
  ConfigHeaders : gmap string string;
  Timeout : Z;                             (* [time.Duration], nanoseconds *)
  Concurrency : Z;
}.

Definition set_Error (e : string) (r : CORSTestResult) : CORSTestResult :=
  mkResult (URL r) (StatusCode r) (Headers r) e (HasCORS r) (CORSHeaders r) (Timestamp r).

Definition set_StatusCode (c : Z) (r : CORSTestResult) : CORSTestResult :=
  mkResult (URL r) c (Headers r) (Error r) (HasCORS r) (CORSHeaders r) (Timestamp r).

(** [len(s)] and [range s] treat a nil slice as empty. *)
Definition elems {A} (s : option (list A)) : list A := default [] s.

(** [range m] and [m[k]] treat a nil map as empty. *)
Definition entries (m : option (gmap string string)) : gmap string string := default ∅ m.

(** [result.Headers[key] = value]: assignment to an entry of a nil map panics. *)
Definition assign_Header (key value : string) (r : CORSTestResult) : Outcome CORSTestResult :=
  match Headers r with
  | None => Panic "assignment to entry in nil map"
  | Some m =>
      Ret (mkResult (URL r) (StatusCode r) (Some (<[key := value]> m)) (Error r)
                    (HasCORS r) (CORSHeaders r) (Timestamp r))
  end.

(** [result.HasCORS = true; result.CORSHeaders = append(result.CORSHeaders, key)];
    [append] to a nil slice allocates. *)
Definition mark_CORS (key : string) (r : CORSTestResult) : CORSTestResult :=
  mkResult (URL r) (StatusCode r) (Headers r) (Error r) true
           (Some (elems (CORSHeaders r) ++ [key])) (Timestamp r).

(** ** [net/http] requests and responses *)

Record Request := mkRequest {
  ReqMethod : string;
  ReqURL : url_URL;
  ReqHeader : gmap string (list string);
}.

Record Response := mkResponse {
  RespStatusCode : Z;
  RespHeader : gmap string (list string);
}.

Record Client := mkClient { ClientTimeout : Z }.

(** What the network answers when a client sends a request: a response (of
    any status code) or a transport error (connection refused, timeout...).
    The answer always comes: a request without time limit that the peer
    never answers is outside this model. *)
Definition Transport : Type := Client → Request → result Response.

(** [net/http]'s [removeEmptyPort]: a host ending in [:] with nothing after
    it loses the colon. *)
Definition removeEmptyPort (host : string) : string :=
  if (LastIndexByte host "]"%char <? LastIndexByte host ":"%char)%Z
  then TrimSuffixByte host ":"%char
  else host.

(** [http.NewRequest(method, url, nil)]: an empty method means GET, the
    method must be a valid token and the URL must parse; the request starts
    with an empty header map. *)
Definition http_NewRequest (method url : string) : result Request :=
  let method := if bool_decide (method = "") then "GET" else method in
  if negb (validMethod method)
  then Err ("net/http: invalid method " +:+ strconv_Quote method)
  else match url_Parse url with
       | Err e => Err e
       | Ok u =>
           let u := mkURL (Scheme u) (removeEmptyPort (Host u)) (Path u) (RawQuery u) in
           Ok (mkRequest method u ∅)
       end.

(** [req.Header.Set(key, value)]. *)
Definition Header_Set (key value : string) (req : Request) : Request :=
  mkRequest (ReqMethod req) (ReqURL req)
            (<[CanonicalMIMEHeaderKey key := [value]]> (ReqHeader req)).

(** [req.Header.Get(key)]; the empty string when the header is not set. *)
Definition Header_Get (key : string) (req : Request) : string :=
  match ReqHeader req !! CanonicalMIMEHeaderKey key with
  | Some (v :: _) => v
  | _ => ""
  end.

(** [client.Do(req)]. *)
Definition client_Do (net : Transport) (client : Client) (req : Request) : result Response :=
  net client req.

(** ** [isCORSHeader] (lines 257-273) and [isValidURL] (lines 275-278) *)

Definition corsHeaders : list string :=
  [ "access-control-allow-origin";
    "access-control-allow-methods";
    "access-control-allow-headers";
    "access-control-allow-credentials";
    "access-control-expose-headers";
    "access-control-max-age" ].

(** The loop returns at the first entry of the table contained in [header]. *)
Fixpoint isCORSHeader_loop (table : list string) (header : string) : bool :=
  match table with
  | [] => false
  | corsHeader :: rest =>
      if Contains header corsHeader then true else isCORSHeader_loop rest header
  end.

Definition isCORSHeader (header : string) : bool :=
  isCORSHeader_loop corsHeaders header.

Definition isValidURL (urlStr : string) : bool :=
  match url_Parse urlStr with
  | Err _ => false
  | Ok parsed =>
      negb (bool_decide (Scheme parsed = "")) && negb (bool_decide (Host parsed = ""))
  end.

(** ** [testCORS] (lines 93-142) *)

(** The sentinel appended to the target's own origin. *)
Definition originSuffix : string := "-test.cors.com".

(** Lines 115-119: the spoofed [Origin] value for a parsed target. *)
Definition spoofedOrigin (parsedURL : url_URL) : string :=
  let origin := Scheme parsedURL +:+ "://" +:+ Host parsedURL in
  origin +:+ originSuffix.

(** Lines 105-119: the request that is handed to [client.Do], or the error
    of [http.NewRequest]. *)
Definition buildRequest (targetURL : string) (config : Config) : result Request :=
  match http_NewRequest (Method config) targetURL with
  | Err err => Err err
  | Ok req =>
      let req := foldl (λ req kv, Header_Set kv.1 kv.2 req) req
                       (map_to_list (ConfigHeaders config)) in
      match url_Parse targetURL with
      | Ok parsedURL => Ok (Header_Set "Origin" (spoofedOrigin parsedURL) req)
      | Err _ => Ok req
      end
  end.

(** Lines 131-138: the body of the loop over the response headers. *)
Definition recordHeader (r : CORSTestResult) (kv : string * list string)
  : Outcome CORSTestResult :=
  let headerValue := Join kv.2 ", " in
  r ← assign_Header kv.1 headerValue r;
  let keyLower := ToLower kv.1 in
  if isCORSHeader keyLower then Ret (mark_CORS kv.1 r) else Ret r.

(** [testCORS].  [net] answers the request, [now] is
    [time.Now().Format(time.RFC3339)].  The second component lists the
    requests handed to [client.Do], in order. *)
Definition testCORS (net : Transport) (now : string) (targetURL : string)
    (config : Config) : Outcome CORSTestResult * list Request :=
  let r := mkResult targetURL 0 (Some ∅) "" false (Some []) now in
  let client := mkClient (Timeout config) in
  match buildRequest targetURL config with
  | Err err => (Ret (set_Error ("Error creating request: " +:+ err) r), [])
  | Ok req =>
      match client_Do net client req with
      | Err err => (Ret (set_Error ("Request failed: " +:+ err) r), [req])
      | Ok resp =>
          let r := set_StatusCode (RespStatusCode resp) r in
          (foldM recordHeader r (map_to_list (RespHeader resp)), [req])
      end
  end.

(** ** Reading the target list (lines 145-166 of [testBulkCORS]) *)

(** What a [bufio.Scanner] over an opened file yields: the tokens returned
    by the successive [Scan] calls, one per input line, and the value of
    [scanner.Err()] once [Scan] has returned false. *)
Record ScannedFile := mkScanned {
  scanLines : list string;
  scanErr : option string;
}.

(** The file system as the program uses it: [os.Open] of an input file and
    the error, if any, of [os.Create] of an output file. *)
Record FileSystem := mkFS {
  os_Open : string → result ScannedFile;
  os_Create : string → option string;
}.

(** The body of the scanning loop, lines 154-157. *)
Definition collectLine (urls : list string) (line : string) : list string :=
  let url := TrimSpace line in
  if negb (bool_decide (url = "")) && isValidURL url then urls ++ [url] else urls.

(** Lines 151-158. *)
Definition collectURLs (lines : list string) : list string :=
  foldl collectLine [] lines.

(** Lines 145-166: the targets to schedule, or the fatal error. *)
Definition readTargets (fs : FileSystem) (filename : string) : Outcome (list string) :=
  match os_Open fs filename with
  | Err err => Fatal ("Error opening file: " +:+ err)
  | Ok file =>
      let urls := collectURLs (scanLines file) in
      match scanErr file with
      | Some err => Fatal ("Error reading file: " +:+ err)
      | None =>
          if bool_decide (length urls = 0%nat)
          then Fatal "No valid URLs found in file"
          else Ret urls
      end
  end.

(** ** The concurrent part of [testBulkCORS] (lines 168-189) *)

(** Where a worker goroutine (lines 175-185) stands. *)
Inductive WorkerPC :=
| AtAcquire                        (* line 177: [semaphore <- struct{}{}] *)
| AtProbe                          (* line 180: [testCORS(targetURL, config)] *)
| AtLock (r : CORSTestResult)      (* line 182: [mu.Lock()] *)
| AtAppend (r : CORSTestResult)    (* line 183: [results = append(results, result)] *)
| AtUnlock                         (* line 184: [mu.Unlock()] *)
| AtRelease (p : option string)    (* deferred [<-semaphore]; [p]: a panic in flight *)
| AtWgDone (p : option string)     (* deferred [wg.Done()] *)
| Exited.

Record Worker := mkWorker {
  targetURL : string;
  pc : WorkerPC;
}.

(** Where the goroutine that called [testBulkCORS] stands. *)
Inductive MainPC :=
| Spawning (rest : list string)         (* lines 173-186, targets still to spawn *)
| AtWait                                (* line 188: [wg.Wait()] *)
| Returned (rs : list CORSTestResult)   (* line 189 *)
| Crashed (msg : string).               (* the process has died *)

Record BulkState := mkState {
  mainpc : MainPC;
  workers : list Worker;            (* the goroutines, in spawning order *)
  semLen : nat;                     (* elements buffered in [semaphore] *)
  semCap : nat;                     (* its capacity *)
  muLocked : bool;                  (* [mu] *)
  wgCount : nat;                    (* the counter of [wg] *)
  results : list CORSTestResult;    (* the shared [results] slice *)
  probed : list string;             (* targets [testCORS] was called on *)
  sent : list Request;              (* requests handed to [client.Do] *)
}.

(** One scheduling decision.  A worker taking the step of line 180 meets
    the network [net] at time [now]. *)
Inductive Event :=
| EvMain
| EvWorker (i : nat) (net : Transport) (now : string)
| EvHandoff (i j : nat).

Definition setPC (i : nat) (w : Worker) (pc' : WorkerPC) (ws : list Worker) : list Worker :=
  <[i := mkWorker (targetURL w) pc']> ws.

Definition crash (msg : string) (ws : list Worker) (s : BulkState) : BulkState :=
  mkState (Crashed msg) ws (semLen s) (semCap s) (muLocked s) (wgCount s)
          (results s) (probed s) (sent s).

(** Line 171: [make(chan struct{}, config.Concurrency)] panics on a negative
    size; the other variables start at their zero values. *)
Definition bulk_init (config : Config) (urls : list string) : Outcome BulkState :=
  if (Concurrency config <? 0)%Z then Panic "makechan: size out of range"
  else Ret (mkState (Spawning urls) [] 0 (Z.to_nat (Concurrency config)) false 0 [] [] []).

(** The calling goroutine: spawn one worker per target ([wg.Add(1)] and the
    [go] statement), then wait until the counter is zero and return. *)
Definition step_main (s : BulkState) : option BulkState :=
  match mainpc s with
  | Spawning (url :: rest) =>
      Some (mkState (Spawning rest) (workers s ++ [mkWorker url AtAcquire])
                    (semLen s) (semCap s) (muLocked s) (S (wgCount s))
                    (results s) (probed s) (sent s))
  | Spawning [] =>
      Some (mkState AtWait (workers s) (semLen s) (semCap s) (muLocked s)
                    (wgCount s) (results s) (probed s) (sent s))
  | AtWait =>
      if bool_decide (wgCount s = 0%nat)
      then Some (mkState (Returned (results s)) (workers s) (semLen s) (semCap s)
                         (muLocked s) (wgCount s) (results s) (probed s) (sent s))
      else None
  | Returned _ | Crashed _ => None
  end.

(** The next statement of worker [i], which stands at [pc w]; [None] when
    the worker is blocked or gone.  A panic in [testCORS] runs the deferred
    calls (slot release, then [wg.Done()]) before it takes the process
    down. *)
Definition worker_move (config : Config) (i : nat) (w : Worker) (net : Transport)
    (now : string) (s : BulkState) : option BulkState :=
  let ws' := λ pc', setPC i w pc' (workers s) in
  match pc w with
  | AtAcquire =>
      if bool_decide (semLen s < semCap s)%nat
      then Some (mkState (mainpc s) (ws' AtProbe) (S (semLen s)) (semCap s)
                         (muLocked s) (wgCount s) (results s) (probed s) (sent s))
      else None
  | AtProbe =>
      let '(out, reqs) := testCORS net now (targetURL w) config in
      let probed' := probed s ++ [targetURL w] in
      let sent' := sent s ++ reqs in
      match out with
      | Ret r =>
          Some (mkState (mainpc s) (ws' (AtLock r)) (semLen s) (semCap s)
                        (muLocked s) (wgCount s) (results s) probed' sent')
      | Panic msg =>
          Some (mkState (mainpc s) (ws' (AtRelease (Some msg))) (semLen s)
                        (semCap s) (muLocked s) (wgCount s) (results s) probed' sent')
      | Fatal msg =>
          Some (mkState (Crashed msg) (ws' Exited) (semLen s) (semCap s)
                        (muLocked s) (wgCount s) (results s) probed' sent')
      end
  | AtLock r =>
      if muLocked s then None
      else Some (mkState (mainpc s) (ws' (AtAppend r)) (semLen s) (semCap s)
                         true (wgCount s) (results s) (probed s) (sent s))
  | AtAppend r =>
      Some (mkState (mainpc s) (ws' AtUnlock) (semLen s) (semCap s)
                    (muLocked s) (wgCount s) (results s ++ [r]) (probed s) (sent s))
  | AtUnlock =>
      if muLocked s
      then Some (mkState (mainpc s) (ws' (AtRelease None)) (semLen s)
                         (semCap s) false (wgCount s) (results s) (probed s) (sent s))
      else Some (crash "sync: unlock of unlocked mutex" (ws' Exited) s)
  | AtRelease p =>
      match semLen s with
      | O => None
      | S n =>
          Some (mkState (mainpc s) (ws' (AtWgDone p)) n (semCap s)
                        (muLocked s) (wgCount s) (results s) (probed s) (sent s))
      end
  | AtWgDone p =>
      match wgCount s with
      | O => Some (crash "sync: negative WaitGroup counter" (ws' Exited) s)
      | S n =>
          let mainpc' := match p with None => mainpc s | Some msg => Crashed msg end in
          Some (mkState mainpc' (ws' Exited) (semLen s) (semCap s)
                        (muLocked s) n (results s) (probed s) (sent s))
      end
  | Exited => None
  end.

(** One step of worker [i]: nothing runs once the process has died, and
    there is no step for a goroutine that was never spawned. *)
Definition step_worker (config : Config) (i : nat) (net : Transport) (now : string)
    (s : BulkState) : option BulkState :=
  match mainpc s with
  | Crashed _ => None
  | _ =>
      match workers s !! i with
      | None => None
      | Some w => worker_move config i w net now s
      end
  end.

(** A send that finds the buffer empty and a receiver already waiting hands
    its element over directly: sender [i] and receiver [j] both proceed.  On
    a channel of capacity zero this is the only way a send completes. *)
Definition step_handoff (i j : nat) (s : BulkState) : option BulkState :=
  match mainpc s with
  | Crashed _ => None
  | _ =>
    match workers s !! i, workers s !! j with
    | Some wi, Some wj =>
        match pc wi, pc wj, semLen s with
        | AtAcquire, AtRelease p, O =>
            Some (mkState (mainpc s)
                          (setPC j wj (AtWgDone p) (setPC i wi AtProbe (workers s)))
                          (semLen s) (semCap s) (muLocked s) (wgCount s)
                          (results s) (probed s) (sent s))
        | _, _, _ => None
        end
    | _, _ => None
    end
  end.

Definition step (config : Config) (e : Event) (s : BulkState) : option BulkState :=
  match e with
  | EvMain => step_main s
  | EvWorker i net now => step_worker config i net now s
  | EvHandoff i j => step_handoff i j s
  end.

(** The interleaving semantics: any enabled event may be taken next. *)
Definition bulk_step (config : Config) (s s' : BulkState) : Prop :=
  ∃ e, step config e s = Some s'.

(** Running a given schedule; [None] if one of its events is not enabled. *)
Fixpoint run (config : Config) (sched : list Event) (s : BulkState) : option BulkState :=
  match sched with
  | [] => Some s
  | e :: sched' =>
      match step config e s with
      | Some s' => run config sched' s'
      | None => None
      end
  end.

(** [testBulkCORS(filename, config)] returns [rs]: the targets are read, the
    channel is made, and some interleaving reaches line 189 with [rs]. *)
Definition testBulkCORS_returns (fs : FileSystem) (filename : string) (config : Config)
    (rs : list CORSTestResult) : Prop :=
  ∃ urls s0 s,
    readTargets fs filename = Ret urls ∧
    bulk_init config urls = Ret s0 ∧
    rtc (bulk_step config) s0 s ∧
    mainpc s = Returned rs.

(** A worker holds a slot of [semaphore] from its send to its receive. *)
Definition holdsSlot (p : WorkerPC) : bool :=
  match p with
  | AtProbe | AtLock _ | AtAppend _ | AtUnlock | AtRelease _ => true
  | AtAcquire | AtWgDone _ | Exited => false
  end.

(** A worker is inside its [testCORS] call (its network call is in flight). *)
Definition probing (p : WorkerPC) : bool :=
  match p with AtProbe => true | _ => false end.

(** The worker has executed line 183. *)
Definition appended (p : WorkerPC) : bool :=
  match p with
  | AtUnlock | AtRelease None | AtWgDone None | Exited => true
  | _ => false
  end.

Definition countPC (f : WorkerPC → bool) (ws : list Worker) : nat :=
  length (filter (λ w, f (pc w) = true) ws).

(** The targets of the workers whose program counter satisfies [f]. *)
Definition select (f : WorkerPC → bool) (ws : list Worker) : list string :=
  targetURL <$> filter (λ w, f (pc w) = true) ws.

(** The worker is between [mu.Lock()] and [mu.Unlock()]. *)
Definition inCritical (p : WorkerPC) : bool :=
  match p with AtAppend _ | AtUnlock => true | _ => false end.

(** The worker has not yet called [wg.Done()]. *)
Definition running (p : WorkerPC) : bool :=
  match p with Exited => false | _ => true end.

(** The worker's call of [testCORS] is behind it. *)
Definition pastProbe (p : WorkerPC) : bool :=
  match p with AtAcquire | AtProbe => false | _ => true end.

(** Steps a worker has left, and steps the caller has left before it
    returns; their sum bounds the length of every run. *)
Definition pcMeasure (p : WorkerPC) : nat :=
  match p with
  | AtAcquire => 7 | AtProbe => 6 | AtLock _ => 5 | AtAppend _ => 4
  | AtUnlock => 3 | AtRelease _ => 2 | AtWgDone _ => 1 | Exited => 0
  end.

Definition mainMeasure (m : MainPC) : nat :=
  match m with
  | Spawning rest => 8 * length rest + 2
  | AtWait => 1
  | Returned _ | Crashed _ => 0
  end.

Definition measure (s : BulkState) : nat :=
  mainMeasure (mainpc s) + sum_list_with (λ w, pcMeasure (pc w)) (workers s).

(** ** [printSummary] (lines 231-255) *)

(** The last line of the summary: either the quotient
    [float64(successful)/float64(total)*100] printed with [%.2f%%], or the
    literal text [Success rate: 0%], which involves no division. *)
Inductive RateLine :=
| RateQuotient (successful total : Z)
| RateZeroLiteral.

Record Summary := mkSummary {
  sumTotal : Z;
  sumSuccessful : Z;
  sumWithCORS : Z;
  sumRate : RateLine;
}.

(** The body of the loop of lines 236-243 on the pair of counters. *)
Definition tally (counts : Z * Z) (r : CORSTestResult) : Z * Z :=
  let successful := if bool_decide (Error r = "") then (counts.1 + 1)%Z else counts.1 in
  let withCORS := if HasCORS r then (counts.2 + 1)%Z else counts.2 in
  (successful, withCORS).

(** What [printSummary] prints, as the values it formats. *)
Definition printSummary (rs : list CORSTestResult) : Summary :=
  let total := Z.of_nat (length rs) in
  let '(successful, withCORS) := foldl tally (0%Z, 0%Z) rs in
  mkSummary total successful withCORS
            (if (0 <? total)%Z then RateQuotient successful total else RateZeroLiteral).

(** ** [saveResults] (lines 192-229) *)

Definition nl : string := String (Ascii.ascii_of_nat 10) "".

(** [strings.Repeat(s, n)]. *)
Fixpoint Repeat (s : string) (n : nat) : string :=
  match n with
  | O => ""
  | S n' => s +:+ Repeat s n'
  end.

(** [%t]. *)
Definition fmt_bool (b : bool) : string := if b then "true" else "false".

Definition reportBlock (r : CORSTestResult) : string :=
  Repeat "=" 80 +:+ nl +:+
  "URL: " +:+ URL r +:+ nl +:+
  "Timestamp: " +:+ Timestamp r +:+ nl +:+
  "Status Code: " +:+ pretty (StatusCode r) +:+ nl +:+
  "Has CORS: " +:+ fmt_bool (HasCORS r) +:+ nl +:+
  (if bool_decide (Error r = "") then "" else "Error: " +:+ Error r +:+ nl) +:+
  (if bool_decide (0 < length (elems (CORSHeaders r)))%nat
   then "CORS Headers Found:" +:+ nl +:+
        foldl (λ out header,
                 out +:+ "  - " +:+ header +:+ ": " +:+
                 default "" (entries (Headers r) !! header) +:+ nl)
              "" (elems (CORSHeaders r))
   else "") +:+
  "All Headers:" +:+ nl +:+
  foldl (λ out kv, out +:+ "  " +:+ kv.1 +:+ ": " +:+ kv.2 +:+ nl)
        "" (map_to_list (entries (Headers r))) +:+
  nl.

Definition reportText (rs : list CORSTestResult) : string :=
  foldl (λ out r, out +:+ reportBlock r) "" rs.

(** The error of [os.Create], or the text written to [filename]. *)
Definition saveResults (fs : FileSystem) (rs : list CORSTestResult) (filename : string)
  : result string :=
  match os_Create fs filename with
  | Some err => Err err
  | None => Ok (reportText rs)
  end.

(** ** [main] (lines 33-91) *)

Record Flags := mkFlags {
  urlInput : string;
  fileInput : string;
  outputFile : string;
  method : string;
  concurrency : Z;
  timeout : Z;
  verbose : bool;
  showVersion : bool;
}.

(** The flag defaults of lines 35-42. *)
Definition defaultFlags : Flags :=
  mkFlags "" "" "cors_results.txt" "GET" 5 10 false false.

(** Signed 64-bit wrap-around. *)
Definition wrap64 (z : Z) : Z := ((z + 2 ^ 63) mod 2 ^ 64 - 2 ^ 63)%Z.

(** Lines 58-65. *)
Definition main_config (flags : Flags) : Config :=
  mkConfig (method flags)
           {[ "User-Agent" := "CORS-Testing-Tool/1.0" ]}
           (wrap64 (timeout flags * 1000000000))
           (concurrency flags).

(** How a run of the process ends. *)
Record ProcessEnd := mkEnd {
  exitCode : Z;
  fatalMessage : option string;               (* logged by [log.Fatal] or a panic *)
  reportWritten : option (string * string);   (* file name and text *)
  summaryPrinted : option Summary;
  targetsProbed : list string;                (* targets [testCORS] was called on *)
}.

(** Lines 82-90: save the report, then print the summary. *)
Definition main_finish (fs : FileSystem) (flags : Flags) (rs : list CORSTestResult)
    (probedTargets : list string) : ProcessEnd :=
  match saveResults fs rs (outputFile flags) with
  | Err err => mkEnd 1 (Some ("Error saving results: " +:+ err)) None None probedTargets
  | Ok text =>
      mkEnd 0 None (Some (outputFile flags, text)) (Some (printSummary rs)) probedTargets
  end.

(** The completed runs of [main].  A run in which no goroutine can move any
    more has no end here: it writes and prints nothing further, whether the
    process hangs or the runtime aborts it with its deadlock report. *)
Inductive main_run (fs : FileSystem) (flags : Flags) : ProcessEnd → Prop :=
| run_version :
    showVersion flags = true →
    main_run fs flags (mkEnd 0 None None None [])
| run_usage :
    showVersion flags = false → urlInput flags = "" → fileInput flags = "" →
    main_run fs flags (mkEnd 1 None None None [])
| run_single net now r reqs :
    showVersion flags = false → urlInput flags ≠ "" →
    testCORS net now (urlInput flags) (main_config flags) = (Ret r, reqs) →
    main_run fs flags (main_finish fs flags [r] [urlInput flags])
| run_single_panic net now msg reqs :
    showVersion flags = false → urlInput flags ≠ "" →
    testCORS net now (urlInput flags) (main_config flags) = (Panic msg, reqs) →
    main_run fs flags (mkEnd 2 (Some msg) None None [urlInput flags])
| run_bulk_fatal msg :
    showVersion flags = false → urlInput flags = "" → fileInput flags ≠ "" →
    readTargets fs (fileInput flags) = Fatal msg →
    main_run fs flags (mkEnd 1 (Some msg) None None [])
| run_bulk_makechan urls msg :
    showVersion flags = false → urlInput flags = "" → fileInput flags ≠ "" →
    readTargets fs (fileInput flags) = Ret urls →
    bulk_init (main_config flags) urls = Panic msg →
    main_run fs flags (mkEnd 2 (Some msg) None None [])
| run_bulk urls s0 s rs :
    showVersion flags = false → urlInput flags = "" → fileInput flags ≠ "" →
    readTargets fs (fileInput flags) = Ret urls →
    bulk_init (main_config flags) urls = Ret s0 →
    rtc (bulk_step (main_config flags)) s0 s →
    mainpc s = Returned rs →
    main_run fs flags (main_finish fs flags rs (probed s))
| run_bulk_crash urls s0 s msg :
    showVersion flags = false → urlInput flags = "" → fileInput flags ≠ "" →
    readTargets fs (fileInput flags) = Ret urls →
    bulk_init (main_config flags) urls = Ret s0 →
    rtc (bulk_step (main_config flags)) s0 s →
    mainpc s = Crashed msg →
    main_run fs flags (mkEnd 2 (Some msg) None None (probed s)).

(** ** Vocabulary of the statements *)

(** The name [key], lower-cased as [strings.ToLower] does, contains [sub]. *)
Definition containsFolded (key sub : string) : Prop :=
  ∃ pre post, ToLower key = pre +:+ sub +:+ post.

(** [key] contains, case-insensitively, one of the six CORS header names. *)
Definition namesCORS (key : string) : Prop :=
  ∃ sub,
    sub ∈ [ "access-control-allow-origin"; "access-control-allow-methods";
            "access-control-allow-headers"; "access-control-allow-credentials";
            "access-control-expose-headers"; "access-control-max-age" ] ∧
    containsFolded key sub.

(** The CORS header names among [keys], in order. *)
Definition corsKeys (keys : list string) : list string :=
  filter (λ key, isCORSHeader (ToLower key) = true) keys.

Definition joined (values : list string) : string := Join values ", ".

Definition failedResult (targetURL now msg : string) : CORSTestResult :=
  mkResult targetURL 0 (Some ∅) msg false (Some []) now.

Definition answeredResult (targetURL now : string) (resp : Response) : CORSTestResult :=
  let keys := (map_to_list (RespHeader resp)).*1 in
  mkResult targetURL (RespStatusCode resp) (Some (joined <$> RespHeader resp)) ""
           (negb (bool_decide (corsKeys keys = []))) (Some (corsKeys keys)) now.

Definition succeeded (r : CORSTestResult) : Prop := Error r = "".

Definition flagged (r : CORSTestResult) : Prop := HasCORS r = true.

(** A line's text is schedulable: non-empty, and [url.Parse] accepts it with
    a non-empty scheme and a non-empty host. *)
Definition schedulable (u : string) : Prop :=
  u ≠ "" ∧
  match url_Parse u with
  | Ok parsed => Scheme parsed ≠ "" ∧ Host parsed ≠ ""
  | Err _ => False
  end.

#[global] Instance schedulable_dec u : Decision (schedulable u).
Proof. unfold schedulable. destruct (url_Parse u); apply _. Defined.

(** ** Vocabulary of the invariant of the bulk scan *)

Definition weight (b : bool) : nat := if b then 1 else 0.

Definition tag (b : bool) (u : string) : list string := if b then [u] else [].

(** The program counters whose next statement never blocks. *)
Definition freePC (p : WorkerPC) : bool :=
  match p with AtProbe | AtAppend _ | AtUnlock | AtWgDone _ => true | _ => false end.

Definition atRelease (p : WorkerPC) : bool :=
  match p with AtRelease _ => true | _ => false end.

Definition atLock (p : WorkerPC) : bool :=
  match p with AtLock _ => true | _ => false end.

(** [r] is a result that [testCORS] returns for [target] under [config],
    for some answer of the network at some time. *)
Definition probeOf (config : Config) (target : string) (r : CORSTestResult) : Prop :=
  ∃ net now, (testCORS net now target config).1 = Ret r.

(** No panic is in flight, and a result waiting to be appended is a result
    of the probe of the worker's own target. *)
Definition goodPC (config : Config) (w : Worker) : Prop :=
  match pc w with
  | AtLock r | AtAppend r => URL r = targetURL w ∧ probeOf config (targetURL w) r
  | AtRelease (Some _) | AtWgDone (Some _) => False
  | _ => True
  end.

Definition goodMain (urls : list string) (s : BulkState) : Prop :=
  match mainpc s with
  | Spawning rest => (targetURL <$> workers s) ++ rest = urls
  | AtWait => targetURL <$> workers s = urls
  | Returned rs =>
      targetURL <$> workers s = urls ∧ rs = results s ∧ wgCount s = 0%nat
  | Crashed _ => False
  end.

Record Inv (config : Config) (urls : list string) (s : BulkState) : Prop := mkInv {
  inv_cap : semCap s = Z.to_nat (Concurrency config);
  inv_sem : semLen s = countPC holdsSlot (workers s);
  inv_bound : (semLen s ≤ semCap s)%nat;
  inv_mu : weight (muLocked s) = countPC inCritical (workers s);
  inv_wg : wgCount s = countPC running (workers s);
  inv_good : Forall (goodPC config) (workers s);
  inv_main : goodMain urls s;
  inv_results : URL <$> results s ≡ₚ select appended (workers s);
  inv_probes : Forall (λ r, probeOf config (URL r) r) (results s);
  inv_probed : probed s ≡ₚ select pastProbe (workers s);
}.

(** ** Vocabulary of the further properties *)





End Program.

(** ** A small instance of the library, to run the program on examples

    The theorems below hold for every instance of [GoStdlib].  This one is a
    stand-in that agrees with Go on plain inputs of the shape
    [scheme://host/path]; it is used to evaluate the program at concrete
    inputs only. *)

(** [strings.Cut(s, sep)]. *)
Fixpoint Cut (s sep : string) : option (string * string) :=
  if HasPrefix s sep then Some ("", String.substring (String.length sep)
                                      (String.length s - String.length sep) s)
  else match s with
       | EmptyString => None
       | String c s' =>
           match Cut s' sep with
           | Some (before, after) => Some (String c before, after)
           | None => None
           end
       end.

Fixpoint allBytes (f : ascii → bool) (s : string) : bool :=
  match s with
  | EmptyString => true
  | String c s' => f c && allBytes f s'
  end.

(** An ASCII control character. *)
Definition isCTL (c : ascii) : bool :=
  ((byte_val c <? 32) || (byte_val c =? 127))%N.

Definition sample_Parse (s : string) : result url_URL :=
  if negb (allBytes (λ c, negb (isCTL c)) s)
  then Err "net/url: invalid control character in URL"
  else match Cut s "://" with
       | Some (scheme, rest) =>
           match Cut rest "/" with
           | Some (host, path) => Ok (mkURL scheme host ("/" +:+ path) "")
           | None => Ok (mkURL scheme rest "" "")
           end
       | None => Ok (mkURL "" "" s "")
       end.

(** The token characters of RFC 7230. *)
Definition isTokenByte (c : ascii) : bool :=
  let n := byte_val c in
  (((48 <=? n) && (n <=? 57)) || ((65 <=? n) && (n <=? 90)) || ((97 <=? n) && (n <=? 122))
   || (n =? 33) || ((35 <=? n) && (n <=? 39)) || (n =? 42) || (n =? 43) || (n =? 45)
   || (n =? 46) || (n =? 94) || (n =? 95) || (n =? 96) || (n =? 124) || (n =? 126))%N.

Definition sample_validMethod (m : string) : bool :=
  negb (bool_decide (m = "")) && allBytes isTokenByte m.

Definition upperByte (c : ascii) : ascii :=
  if ((97 <=? byte_val c) && (byte_val c <=? 122))%N
  then Ascii.ascii_of_N (byte_val c - 32)
  else c.

(** Upper case at the start and after a hyphen, lower case elsewhere. *)
Fixpoint canonBytes (upper : bool) (s : string) : string :=
  match s with
  | EmptyString => EmptyString
  | String c s' =>
      String (if upper then upperByte c else lowerByte c)
             (canonBytes (bool_decide (c = "-"%char)) s')
  end.

Definition sample_Canonical (key : string) : string :=
  if allBytes isTokenByte key then canonBytes true key else key.

Definition sampleLib : GoStdlib := {|
  url_Parse := sample_Parse;
  validMethod := sample_validMethod;
  strconv_Quote := λ s, s;
  CanonicalMIMEHeaderKey := sample_Canonical;
  unicode_ToLower := lowerBytes;
  unicode_TrimSpace := λ s, s;
  unicode_TrimRightSpace := λ s, s;
|}.

(** A server that answers every request with status 200 and two CORS
    headers, one that answers 404 with a plain header, and a network that
    is down. *)
Definition corsServer : Transport := λ _ _,
  Ok (mkResponse 200 {[ "Access-Control-Allow-Origin" := ["*"];
                        "Access-Control-Allow-Credentials" := ["true"];
                        "Vary" := ["Origin"; "Accept"] ]}).

Definition notFoundServer : Transport := λ _ _,
  Ok (mkResponse 404 {[ "Content-Type" := ["text/html"] ]}).

Definition deadNetwork : Transport := λ _ _, Err "dial tcp: connection refused".

Definition sampleConfig (c : Z) : Config :=
  main_config (mkFlags "" "urls.txt" "cors_results.txt" "GET" c 10 false false).

Definition sampleTargets : list string := ["http://a.test/"; "http://b.test/"].

Definition sampleNow : string := "2026-01-01T00:00:00Z".

(** A file with a blank line and a line that is not a URL. *)
Definition sampleFS : FileSystem :=
  mkFS (λ _, Ok (mkScanned [""; "   "; "not a url"] None)) (λ _, None).

Definition sampleFlags : Flags :=
  mkFlags "" "urls.txt" "cors_results.txt" "GET" 5 10 false false.

(** The schedule that lets each worker run to completion right after it is
    spawned. *)
Definition workerRun (i : nat) (net : Transport) : list Event :=
  replicate 7 (EvWorker i net sampleNow).

Fixpoint sequentialFrom (i : nat) (nets : list Transport) : list Event :=
  match nets with
  | [] => [EvMain; EvMain]
  | net :: nets' => EvMain :: workerRun i net ++ sequentialFrom (S i) nets'
  end.

Definition sequential (nets : list Transport) : list Event := sequentialFrom 0 nets.

(** The scan of [sampleTargets] before its first step, with [c] slots. *)
Definition sampleInit (c : nat) : BulkState :=
  mkState (Spawning sampleTargets) [] 0 c false 0 [] [] [].

(** A configuration whose method is not a token. *)
Definition badMethodConfig : Config :=
  mkConfig "BAD METHOD" ∅ 0 2.

(** A file system whose input file cannot be opened. *)
Definition noFileFS : FileSystem :=
  mkFS (λ _, Err "open urls.txt: no such file or directory") (λ _, None).

(** A file system with two valid targets among the lines of the input. *)
Definition twoTargetsFS : FileSystem :=
  mkFS (λ _, Ok (mkScanned [" http://a.test/"; ""; "http://b.test/ "] None)) (λ _, None).

Definition singleFlags : Flags :=
  mkFlags "http://a.test/" "urls.txt" "cors_results.txt" "GET" 5 10 false false.

Definition versionFlags : Flags :=
  mkFlags "http://a.test/" "urls.txt" "cors_results.txt" "GET" 5 10 false true.

(** ** Vocabulary for trimmed strings *)

Definition firstByte (s : string) : option ascii :=
  match s with
  | EmptyString => None
  | String c _ => Some c
  end.

Fixpoint lastByte (s : string) : option ascii :=
  match s with
  | EmptyString => None
  | String c EmptyString => Some c
  | String _ s' => lastByte s'
  end.

(** Neither the first nor the last byte of [s] is an ASCII space. *)
Definition trimmed (s : string) : Prop :=
  (∀ c, firstByte s = Some c → asciiSpace c = false) ∧
  (∀ c, lastByte s = Some c → asciiSpace c = false).

(** * Properties *)

(** ** Package [strings] *)

Lemma HasPrefix_spec s prefix :
  HasPrefix s prefix = true ↔ ∃ post, s = prefix +:+ post.
Proof.
  revert s. induction prefix as [|p prefix IH]; intros s; simpl.
  - split; [intros _; by exists s | done].
  - destruct s as [|c s]; simpl.
    + split; [done | intros [post Hpost]; discriminate].
    + rewrite andb_true_iff, bool_decide_eq_true, IH. split.
      * intros [-> [post ->]]. by exists post.
      * intros [post [= -> ->]]. eauto.
Qed.

Lemma Contains_spec s substr :
  Contains s substr = true ↔ ∃ pre post, s = pre +:+ substr +:+ post.
Proof.
  induction s as [|c s IH]; simpl.
  - rewrite orb_false_r, HasPrefix_spec. split.
    + intros [post Hpost]. by exists "", post.
    + intros [[|c pre] [post Hpost]]; [by exists post | discriminate].
  - rewrite orb_true_iff, IH, HasPrefix_spec. split.
    + intros [[post Hpost] | (pre & post & ->)].
      * by exists "", post.
      * by exists (String c pre), post.
    + intros [[|c' pre] [post Hpost]]; simpl in Hpost.
      * left. by exists post.
      * right. injection Hpost as -> ->. by exists pre, post.
Qed.

Lemma append_length s t :
  String.length (s +:+ t) = (String.length s + String.length t)%nat.
Proof. induction s as [|c s IH]; simpl; [done | by rewrite IH]. Qed.

Lemma append_nonempty_neq s t : t ≠ "" → s +:+ t ≠ s.
Proof.
  intros Ht Heq. apply (f_equal String.length) in Heq.
  rewrite append_length in Heq. destruct t; [done | simpl in Heq; lia].
Qed.

(** ** [isCORSHeader] *)

Lemma isCORSHeader_loop_spec table header :
  isCORSHeader_loop table header = true ↔
  ∃ corsHeader, corsHeader ∈ table ∧ Contains header corsHeader = true.
Proof.
  induction table as [|h table IH]; simpl.
  - split; [done | intros (? & Hin & _); by apply elem_of_nil in Hin].
  - destruct (Contains header h) eqn:Hc.
    + split; [intros _; exists h; split; [left | done] | done].
    + rewrite IH. split.
      * intros (c & Hin & Hcc). exists c. split; [by right | done].
      * intros (c & Hin & Hcc). apply elem_of_cons in Hin as [-> | Hin]; [congruence | eauto].
Qed.

Section Properties.
Context `{GoStdlib}.

Lemma isCORSHeader_ToLower key :
  isCORSHeader (ToLower key) = true ↔ namesCORS key.
Proof.
  unfold isCORSHeader, namesCORS, containsFolded.
  rewrite isCORSHeader_loop_spec. unfold corsHeaders.
  split; intros (sub & Hin & Hc); exists sub; (split; [done |]); by apply Contains_spec.
Qed.

Lemma elem_of_corsKeys key keys :
  key ∈ corsKeys keys ↔ key ∈ keys ∧ namesCORS key.
Proof. unfold corsKeys. rewrite list_elem_of_filter, isCORSHeader_ToLower. tauto. Qed.

(** ** The loop over the response headers *)

Lemma recordHeader_step r key values m :
  Headers r = Some m →
  recordHeader r (key, values) =
  let r1 := mkResult (URL r) (StatusCode r) (Some (<[key := joined values]> m))
                     (Error r) (HasCORS r) (CORSHeaders r) (Timestamp r) in
  Ret (if isCORSHeader (ToLower key) then mark_CORS key r1 else r1).
Proof.
  intros Hm. unfold recordHeader, assign_Header, joined. rewrite Hm.
  cbn [fst snd mbind Outcome_bind outcome_bind].
  by destruct (isCORSHeader (ToLower key)).
Qed.

Lemma foldM_recordHeader l : ∀ r m c,
  Headers r = Some m → CORSHeaders r = Some c →
  ∃ r', foldM recordHeader r l = Ret r' ∧
    URL r' = URL r ∧ StatusCode r' = StatusCode r ∧ Error r' = Error r ∧
    Timestamp r' = Timestamp r ∧
    Headers r' = Some (foldl (λ m kv, <[kv.1 := joined kv.2]> m) m l) ∧
    CORSHeaders r' = Some (c ++ corsKeys l.*1) ∧
    HasCORS r' = HasCORS r || negb (bool_decide (corsKeys l.*1 = [])).
Proof.
  induction l as [|[key values] l IH]; intros r m c Hm Hc.
  - exists r. cbn. rewrite app_nil_r, orb_false_r. done.
  - cbn [foldM]. rewrite (recordHeader_step _ _ _ _ Hm). cbn zeta.
    change (Ret ?x ≫= ?f) with (f x). cbn beta.
    unfold corsKeys. rewrite fmap_cons, filter_cons. fold (corsKeys l.*1). cbn [fst].
    destruct (isCORSHeader (ToLower key)) eqn:Hkey.
    + rewrite decide_True by done.
      edestruct (IH (mark_CORS key (mkResult (URL r) (StatusCode r)
                   (Some (<[key := joined values]> m)) (Error r) (HasCORS r)
                   (CORSHeaders r) (Timestamp r))))
        as (r' & Hrun & ? & ? & ? & ? & Hh & Hcs & Hflag); [done | done |].
      exists r'. split; [exact Hrun |]. cbn in *. rewrite Hc in Hcs. cbn in Hcs.
      rewrite Hcs, Hflag, <- app_assoc, orb_true_r. done.
    + rewrite decide_False by (by intros ?).
      edestruct (IH (mkResult (URL r) (StatusCode r)
                   (Some (<[key := joined values]> m)) (Error r) (HasCORS r)
                   (CORSHeaders r) (Timestamp r)))
        as (r' & Hrun & ? & ? & ? & ? & Hh & Hcs & Hflag); [done | exact Hc |].
      exists r'. split; [exact Hrun |]. cbn in *. done.
Qed.

Lemma foldl_insert_lookup {V W} (f : V → W) (l : list (string * V)) :
  ∀ (m0 : gmap string W) k, NoDup l.*1 →
  foldl (λ m kv, <[kv.1 := f kv.2]> m) m0 l !! k =
  match (list_to_map l : gmap string V) !! k with
  | Some v => Some (f v)
  | None => m0 !! k
  end.
Proof.
  induction l as [|[k' v'] l IH]; intros m0 k Hnd; simpl.
  - by rewrite lookup_empty.
  - apply NoDup_cons in Hnd as [Hk' Hnd]. rewrite IH by done.
    destruct (decide (k' = k)) as [-> | Hne].
    + rewrite (not_elem_of_list_to_map_1 l k) by done.
      by rewrite !lookup_insert_eq.
    + by rewrite !lookup_insert_ne.
Qed.

Lemma foldl_insert_map_to_list {V W} (f : V → W) (m : gmap string V) :
  foldl (λ acc kv, <[kv.1 := f kv.2]> acc) ∅ (map_to_list m) = f <$> m.
Proof.
  apply map_eq. intros k.
  rewrite foldl_insert_lookup by apply NoDup_fst_map_to_list.
  rewrite list_to_map_to_list, lookup_fmap, lookup_empty.
  by destruct (m !! k).
Qed.

(** ** [testCORS] in closed form *)

Lemma testCORS_closed net now targetURL config :
  testCORS net now targetURL config =
  match buildRequest targetURL config with
  | Err err => (Ret (failedResult targetURL now ("Error creating request: " +:+ err)), [])
  | Ok req =>
      match client_Do net (mkClient (Timeout config)) req with
      | Err err => (Ret (failedResult targetURL now ("Request failed: " +:+ err)), [req])
      | Ok resp => (Ret (answeredResult targetURL now resp), [req])
      end
  end.
Proof.
  unfold testCORS. destruct (buildRequest targetURL config) as [req | err]; [| done].
  destruct (client_Do net _ req) as [resp | err]; [| done].
  f_equal.
  destruct (foldM_recordHeader (map_to_list (RespHeader resp))
              (set_StatusCode (RespStatusCode resp)
                 (mkResult targetURL 0 (Some ∅) "" false (Some []) now)) ∅ [])
    as (r' & -> & Hu & Hs & He & Ht & Hh & Hc & Hf); [done | done |].
  f_equal. destruct r'. cbn in *. unfold answeredResult.
  rewrite foldl_insert_map_to_list in Hh. by subst.
Qed.

(** [testCORS] returns a result on every input: it neither panics nor exits. *)
Lemma testCORS_returns net now targetURL config :
  ∃ r, (testCORS net now targetURL config).1 = Ret r ∧ URL r = targetURL.
Proof.
  rewrite testCORS_closed. destruct (buildRequest targetURL config) as [req | err].
  - destruct (client_Do net _ req); eexists; (split; [reflexivity | done]).
  - eexists; (split; [reflexivity | done]).
Qed.

Lemma testCORS_sends_at_most_one net now targetURL config :
  (length (testCORS net now targetURL config).2 ≤ 1)%nat.
Proof.
  rewrite testCORS_closed. destruct (buildRequest targetURL config) as [req | err].
  - destruct (client_Do net _ req); cbn; lia.
  - cbn; lia.
Qed.

(** A request exists only for a target that [url.Parse] accepts, and it
    carries the spoofed origin of that target. *)
Lemma buildRequest_Ok targetURL config req :
  buildRequest targetURL config = Ok req →
  ∃ parsedURL,
    url_Parse targetURL = Ok parsedURL ∧
    Header_Get "Origin" req = spoofedOrigin parsedURL.
Proof.
  unfold buildRequest, http_NewRequest.
  destruct (negb (validMethod _)); [done |].
  destruct (url_Parse targetURL) as [u | e]; [| done].
  intros [= <-]. exists u. split; [done |].
  unfold Header_Get, Header_Set. cbn. by rewrite lookup_insert_eq.
Qed.

Lemma keys_map_to_list {V} (m : gmap string V) key :
  key ∈ (map_to_list m).*1 ↔ is_Some (m !! key).
Proof.
  rewrite list_elem_of_fmap. split.
  - intros ([k v] & -> & Hin). apply elem_of_map_to_list in Hin. eauto.
  - intros [v Hv]. exists (key, v). split; [done | by apply elem_of_map_to_list].
Qed.

(** ** The prober ([testCORS]) *)

(** C2, as amended.  On every target and configuration [testCORS] returns
    one result for that target and neither panics nor exits, and it hands at
    most one request to the network.  A failure to construct the request
    and a transport failure are recorded in the error field, with status
    code zero and an empty header map; a target that [url.Parse] rejects
    gets no request at all and its error reads [Error creating request:
    ...].  A response, whatever its status code, is recorded with an empty
    error field, its status code and its headers. *)
Theorem testCORS_absorbs_failures net now targetURL config :
  ∃ r,
    (testCORS net now targetURL config).1 = Ret r ∧
    URL r = targetURL ∧
    (length (testCORS net now targetURL config).2 ≤ 1)%nat ∧
    (∀ err, buildRequest targetURL config = Err err →
       Error r = "Error creating request: " +:+ err ∧ StatusCode r = 0%Z ∧
       Headers r = Some ∅ ∧ (testCORS net now targetURL config).2 = []) ∧
    (∀ err, url_Parse targetURL = Err err →
       (∃ err', Error r = "Error creating request: " +:+ err') ∧
       (testCORS net now targetURL config).2 = []) ∧
    (∀ req err, buildRequest targetURL config = Ok req →
       client_Do net (mkClient (Timeout config)) req = Err err →
       Error r = "Request failed: " +:+ err ∧ StatusCode r = 0%Z ∧
       Headers r = Some ∅ ∧ (testCORS net now targetURL config).2 = [req]) ∧
    (∀ req resp, buildRequest targetURL config = Ok req →
       client_Do net (mkClient (Timeout config)) req = Ok resp →
       Error r = "" ∧ StatusCode r = RespStatusCode resp ∧
       Headers r = Some (joined <$> RespHeader resp) ∧
       (testCORS net now targetURL config).2 = [req]).
Proof.
  pose proof (testCORS_sends_at_most_one net now targetURL config) as Hlen.
  rewrite testCORS_closed in *.
  destruct (buildRequest targetURL config) as [req | err] eqn:Hreq.
  - destruct (buildRequest_Ok _ _ _ Hreq) as (u & Hu & _).
    destruct (client_Do net _ req) as [resp | err] eqn:Hdo.
    all: eexists; split; [reflexivity |]; split; [done |]; split; [done |].
    all: split_and!; intros; simplify_eq; try congruence.
    all: split_and!; try done; cbn; congruence.
  - eexists. split; [reflexivity |]. split; [done |]. split; [done |].
    split_and!; intros; simplify_eq; eauto.
Qed.

(** C3.  When a response is received, every response header is copied into
    the result's header map with its values joined by [", "]; every header
    whose name contains, case-insensitively, one of the six CORS names sets
    the has-CORS flag and has its original name in the CORS-header list;
    the list holds nothing else and no name twice; and a response without
    such a header yields has-CORS false and an empty list. *)
Theorem testCORS_records_headers net now targetURL config req resp :
  buildRequest targetURL config = Ok req →
  client_Do net (mkClient (Timeout config)) req = Ok resp →
  ∃ r,
    testCORS net now targetURL config = (Ret r, [req]) ∧
    StatusCode r = RespStatusCode resp ∧
    Headers r = Some ((λ values, Join values ", ") <$> RespHeader resp) ∧
    (∀ key values, RespHeader resp !! key = Some values →
       entries (Headers r) !! key = Some (Join values ", ")) ∧
    (∀ key, is_Some (RespHeader resp !! key) → namesCORS key →
       HasCORS r = true ∧ key ∈ elems (CORSHeaders r)) ∧
    (∀ key, key ∈ elems (CORSHeaders r) →
       is_Some (RespHeader resp !! key) ∧ namesCORS key) ∧
    NoDup (elems (CORSHeaders r)) ∧
    ((∀ key, is_Some (RespHeader resp !! key) → ¬ namesCORS key) →
       HasCORS r = false ∧ CORSHeaders r = Some []).
Proof.
  intros Hreq Hdo. rewrite testCORS_closed, Hreq, Hdo.
  eexists. split; [reflexivity |]. cbn [answeredResult StatusCode Headers HasCORS
    CORSHeaders entries elems default from_option id].
  split; [done |]. split; [done |]. split; [| split; [| split; [| split]]].
  - intros key values Hkey. unfold joined. by rewrite lookup_fmap, Hkey.
  - intros key Hkey Hname.
    assert (key ∈ corsKeys (map_to_list (RespHeader resp)).*1) as Hin.
    { apply elem_of_corsKeys. split; [by apply keys_map_to_list | done]. }
    split; [| done]. apply negb_true_iff, bool_decide_eq_false.
    intros Hnil. rewrite Hnil in Hin. by apply elem_of_nil in Hin.
  - intros key [Hin Hname]%elem_of_corsKeys. split; [by apply keys_map_to_list | done].
  - apply NoDup_filter, NoDup_fst_map_to_list.
  - intros Hnone.
    assert (corsKeys (map_to_list (RespHeader resp)).*1 = []) as ->.
    { apply elem_of_nil_inv. intros key [Hin Hname]%elem_of_corsKeys.
      apply (Hnone key); [by apply keys_map_to_list | done]. }
    by rewrite bool_decide_eq_true_2.
Qed.

(** C4.  Every request that [testCORS] sends carries an [Origin] header
    made of the target's own [scheme://host] followed by the fixed suffix
    [-test.cors.com], and that value differs from [scheme://host]. *)
Theorem testCORS_spoofed_origin net now targetURL config req :
  req ∈ (testCORS net now targetURL config).2 →
  ∃ parsedURL,
    url_Parse targetURL = Ok parsedURL ∧
    let origin := Scheme parsedURL +:+ "://" +:+ Host parsedURL in
    Header_Get "Origin" req = origin +:+ "-test.cors.com" ∧
    Header_Get "Origin" req ≠ origin.
Proof.
  rewrite testCORS_closed.
  destruct (buildRequest targetURL config) as [req' | err] eqn:Hreq.
  - assert ((req ∈ [req']) → req = req') as Hone by (by intros ->%list_elem_of_singleton).
    intros Hin. assert (req = req') as ->.
    { apply Hone. by destruct (client_Do net _ req'). }
    destruct (buildRequest_Ok _ _ _ Hreq) as (u & Hu & Horigin).
    exists u. split; [done |]. cbn zeta. rewrite Horigin. unfold spoofedOrigin, originSuffix.
    split; [done |]. by apply append_nonempty_neq.
  - cbn. by intros ?%elem_of_nil.
Qed.

(** C9.  In the result that [testCORS] returns, the has-CORS flag is true
    exactly when the CORS-header list is non-empty; the list and the header
    map are never nil; so a result with has-CORS false carries an empty,
    non-nil list. *)
Theorem testCORS_hasCORS_iff_headers net now targetURL config :
  ∃ r,
    (testCORS net now targetURL config).1 = Ret r ∧
    (HasCORS r = true ↔ elems (CORSHeaders r) ≠ []) ∧
    is_Some (CORSHeaders r) ∧
    is_Some (Headers r) ∧
    (HasCORS r = false → CORSHeaders r = Some []).
Proof.
  rewrite testCORS_closed.
  destruct (buildRequest targetURL config) as [req | err].
  - destruct (client_Do net _ req) as [resp | err].
    + eexists. split; [reflexivity |]. cbn.
      rewrite negb_true_iff, negb_false_iff, bool_decide_eq_false, bool_decide_eq_true.
      repeat split; eauto. by intros ->.
    + eexists. split; [reflexivity |]. cbn. repeat split; eauto; done.
  - eexists. split; [reflexivity |]. cbn. repeat split; eauto; done.
Qed.

(** ** The console summary ([printSummary]) *)

Lemma foldl_tally rs : ∀ a b,
  foldl tally (a, b) rs =
  ((a + Z.of_nat (length (filter succeeded rs)))%Z,
   (b + Z.of_nat (length (filter flagged rs)))%Z).
Proof.
  induction rs as [|r rs IH]; intros a b; cbn [foldl].
  - cbn. f_equal; lia.
  - unfold tally at 2. cbn [fst snd]. rewrite IH, !filter_cons.
    unfold succeeded at 2, flagged at 2.
    destruct (decide (Error r = "")) as [He | He];
      [rewrite (bool_decide_eq_true_2 _ He) | rewrite (bool_decide_eq_false_2 _ He)];
      (destruct (decide (HasCORS r = true)) as [Hc | Hc];
        [rewrite Hc | apply not_true_is_false in Hc as Hc'; rewrite Hc']);
      cbn [length]; f_equal; lia.
Qed.

(** C7.  The summary reports as total the number of results, as successful
    the number of results with an empty error field and as with-CORS the
    number of results with the has-CORS flag set.  With no result the rate
    line is the literal 0% and no quotient is formed; otherwise it is the
    quotient of successful by total.  A result with a non-empty error field
    adds one to the total and nothing to the successful count. *)
Theorem printSummary_counts rs :
  let s := printSummary rs in
  sumTotal s = Z.of_nat (length rs) ∧
  sumSuccessful s = Z.of_nat (length (filter succeeded rs)) ∧
  sumWithCORS s = Z.of_nat (length (filter flagged rs)) ∧
  (sumTotal s = 0%Z → sumRate s = RateZeroLiteral) ∧
  (sumTotal s ≠ 0%Z → sumRate s = RateQuotient (sumSuccessful s) (sumTotal s)) ∧
  (∀ pre failed post, rs = pre ++ failed :: post → Error failed ≠ "" →
     sumTotal s = (sumTotal (printSummary (pre ++ post)) + 1)%Z ∧
     sumSuccessful s = sumSuccessful (printSummary (pre ++ post))).
Proof.
  assert (∀ l, printSummary l =
    mkSummary (Z.of_nat (length l)) (Z.of_nat (length (filter succeeded l)))
      (Z.of_nat (length (filter flagged l)))
      (if (0 <? Z.of_nat (length l))%Z
       then RateQuotient (Z.of_nat (length (filter succeeded l))) (Z.of_nat (length l))
       else RateZeroLiteral)) as Hclosed.
  { intros l. unfold printSummary. by rewrite foldl_tally. }
  cbn zeta. rewrite Hclosed. cbn [sumTotal sumSuccessful sumWithCORS sumRate].
  split_and!; try done.
  - intros ->. done.
  - intros Hne. destruct (0 <? Z.of_nat (length rs))%Z eqn:Hlt; [done | lia].
  - intros pre failed post -> Hfailed. rewrite Hclosed.
    cbn [sumTotal sumSuccessful]. rewrite !filter_app, filter_cons, !length_app.
    unfold succeeded at 2. rewrite decide_False by done. cbn [length].
    split; lia.
Qed.

(** ** Reading the targets ([isValidURL], lines 151-158) *)

Lemma schedulable_test u :
  negb (bool_decide (u = "")) && isValidURL u = true ↔ schedulable u.
Proof.
  unfold schedulable, isValidURL.
  rewrite andb_true_iff, negb_true_iff, bool_decide_eq_false.
  destruct (url_Parse u) as [parsed | e].
  - rewrite andb_true_iff, !negb_true_iff, !bool_decide_eq_false. done.
  - split; [by intros [_ ?] | by intros [_ ?]].
Qed.

Lemma foldl_collectLine lines : ∀ urls,
  foldl collectLine urls lines = urls ++ filter schedulable (TrimSpace <$> lines).
Proof.
  induction lines as [|line lines IH]; intros urls; cbn [foldl fmap list_fmap].
  - by rewrite filter_nil, app_nil_r.
  - rewrite IH, filter_cons. unfold collectLine.
    destruct (negb (bool_decide (TrimSpace line = "")) && isValidURL (TrimSpace line))
      eqn:Htest.
    + rewrite decide_True by (by apply schedulable_test). by rewrite <- app_assoc.
    + rewrite decide_False; [done |]. intros Hs%schedulable_test. congruence.
Qed.

(** C8.  The targets collected from the lines of the input file are, in
    order, the trimmed lines that are schedulable; so a line is scheduled
    exactly when its trimmed text is non-empty and parses with a non-empty
    scheme and a non-empty host, and [testBulkCORS] spawns workers for
    these targets and no others. *)
Theorem collectURLs_schedules_valid_lines lines :
  collectURLs lines = filter schedulable (TrimSpace <$> lines) ∧
  (∀ line, line ∈ lines →
     (TrimSpace line ∈ collectURLs lines ↔ schedulable (TrimSpace line))) ∧
  (∀ fs filename urls, os_Open fs filename = Ok (mkScanned lines None) →
     readTargets fs filename = Ret urls → urls = collectURLs lines) ∧
  (∀ config s0, bulk_init config (collectURLs lines) = Ret s0 →
     mainpc s0 = Spawning (collectURLs lines) ∧ workers s0 = []).
Proof.
  assert (collectURLs lines = filter schedulable (TrimSpace <$> lines)) as Hc.
  { unfold collectURLs. by rewrite foldl_collectLine. }
  split_and!; [done | | |].
  - intros line Hin. rewrite Hc, list_elem_of_filter. split; [tauto |].
    intros Hs. split; [done |]. apply list_elem_of_fmap. eauto.
  - intros fs filename urls Hopen. unfold readTargets. rewrite Hopen. cbn.
    case_bool_decide; [done |]. by intros [= <-].
  - intros config s0. unfold bulk_init. destruct (Concurrency config <? 0)%Z; [done |].
    by intros [= <-].
Qed.

(** ** Counting workers *)

Lemma select_cons f w ws :
  select f (w :: ws) = tag (f (pc w)) (targetURL w) ++ select f ws.
Proof.
  unfold select. rewrite filter_cons.
  destruct (f (pc w)) eqn:Hf; [rewrite decide_True by done | rewrite decide_False by done];
    done.
Qed.

Lemma select_snoc f ws w :
  select f (ws ++ [w]) = select f ws ++ tag (f (pc w)) (targetURL w).
Proof.
  unfold select. rewrite filter_app, fmap_app. f_equal.
  fold (select f [w]). by rewrite select_cons, app_nil_r.
Qed.

Lemma countPC_select f ws : countPC f ws = length (select f ws).
Proof. unfold countPC, select. by rewrite length_fmap. Qed.

Lemma countPC_snoc f ws w :
  countPC f (ws ++ [w]) = (countPC f ws + weight (f (pc w)))%nat.
Proof.
  rewrite !countPC_select, select_snoc, length_app. by destruct (f (pc w)).
Qed.

(** Moving worker [i] from [pc w] to [pc'] moves its target in or out of
    the selection and leaves the others where they are. *)
Lemma select_setPC f i w pc' ws :
  ws !! i = Some w →
  tag (f (pc w)) (targetURL w) ++ select f (setPC i w pc' ws) ≡ₚ
  tag (f pc') (targetURL w) ++ select f ws.
Proof.
  unfold setPC. revert i. induction ws as [|w0 ws IH]; intros [|i] Hi; try done.
  - injection Hi as ->. cbn [insert list_insert]. rewrite !select_cons. cbn [pc targetURL].
    by rewrite !(assoc_L (++)), (comm (++) (tag (f (pc w)) _)).
  - cbn [insert list_insert]. rewrite !select_cons.
    rewrite !(assoc_L (++)), (comm (++) _ (tag (f (pc w0)) _)), <- !(assoc_L (++)).
    rewrite (IH i Hi).
    by rewrite !(assoc_L (++)), (comm (++) (tag (f pc') _)).
Qed.

Lemma countPC_setPC f i w pc' ws :
  ws !! i = Some w →
  (weight (f (pc w)) + countPC f (setPC i w pc' ws) =
   weight (f pc') + countPC f ws)%nat.
Proof.
  intros Hi. pose proof (select_setPC f i w pc' ws Hi) as Hp.
  apply Permutation_length in Hp. rewrite !length_app in Hp.
  rewrite !countPC_select. by destruct (f (pc w)), (f pc').
Qed.

Lemma targets_setPC i w pc' ws :
  ws !! i = Some w → targetURL <$> setPC i w pc' ws = targetURL <$> ws.
Proof.
  intros Hi. unfold setPC. rewrite list_fmap_insert. cbn.
  apply list_insert_id. by rewrite list_lookup_fmap, Hi.
Qed.

Lemma measure_setPC i w pc' ws :
  ws !! i = Some w →
  (pcMeasure (pc w) + sum_list_with (λ w, pcMeasure (pc w)) (setPC i w pc' ws) =
   pcMeasure pc' + sum_list_with (λ w, pcMeasure (pc w)) ws)%nat.
Proof.
  unfold setPC. revert i. induction ws as [|w0 ws IH]; intros [|i] Hi; try done.
  - injection Hi as ->. cbn. lia.
  - specialize (IH i Hi). cbn in *.
    set (a := sum_list_with _ (<[i:=_]> ws)) in *.
    set (b := sum_list_with _ ws) in *.
    destruct (pc w), (pc w0), pc'; cbn in *; lia.
Qed.

Lemma countPC_pos f ws :
  (0 < countPC f ws)%nat → ∃ i w, ws !! i = Some w ∧ f (pc w) = true.
Proof.
  unfold countPC. intros Hpos.
  destruct (filter (λ w, f (pc w) = true) ws) as [|w l] eqn:Hf; [cbn in Hpos; lia |].
  assert (w ∈ filter (λ w, f (pc w) = true) ws) as Hin by (rewrite Hf; left).
  apply list_elem_of_filter in Hin as [Hw Hin].
  apply list_elem_of_lookup in Hin as [i Hi]. eauto.
Qed.

Lemma countPC_zero f ws :
  countPC f ws = 0%nat → ∀ i w, ws !! i = Some w → f (pc w) = false.
Proof.
  intros Hz i w Hi. destruct (f (pc w)) eqn:Hf; [| done].
  assert (w ∈ filter (λ w, f (pc w) = true) ws) as Hin.
  { apply list_elem_of_filter. split; [done | by eapply list_elem_of_lookup_2]. }
  unfold countPC in Hz. destruct (filter _ ws); [by apply elem_of_nil in Hin | done].
Qed.

Lemma select_all f ws :
  (∀ i w, ws !! i = Some w → f (pc w) = true) → select f ws = targetURL <$> ws.
Proof.
  intros Hall. unfold select. f_equal. induction ws as [|w ws IH]; [done |].
  rewrite filter_cons, decide_True by (by apply (Hall 0%nat w)).
  f_equal. apply IH. intros i w' Hi. by apply (Hall (S i)).
Qed.

Lemma select_setPC_same f i w pc' ws :
  ws !! i = Some w → f (pc w) = f pc' →
  select f (setPC i w pc' ws) ≡ₚ select f ws.
Proof.
  intros Hi Hf. pose proof (select_setPC f i w pc' ws Hi) as Hp.
  rewrite Hf in Hp. by apply Permutation_app_inv_l in Hp.
Qed.

Lemma select_setPC_enter f i w pc' ws :
  ws !! i = Some w → f (pc w) = false → f pc' = true →
  select f (setPC i w pc' ws) ≡ₚ targetURL w :: select f ws.
Proof.
  intros Hi Hf Hf'. pose proof (select_setPC f i w pc' ws Hi) as Hp.
  by rewrite Hf, Hf' in Hp.
Qed.

(** ** The invariant of the bulk scan *)

Lemma bulk_init_inv config urls s0 :
  bulk_init config urls = Ret s0 → Inv config urls s0.
Proof.
  unfold bulk_init. destruct (Concurrency config <? 0)%Z eqn:Hneg; [done |].
  intros [= <-]. constructor; cbn; try done; lia.
Qed.

Ltac proj_state :=
  cbn [mainpc workers semLen semCap muLocked wgCount results probed sent].

Lemma step_main_inv config urls s s' :
  Inv config urls s → step_main s = Some s' → Inv config urls s'.
Proof.
  intros [Hcap Hsem Hbound Hmu Hwg Hgood Hmain Hres Hprov Hprobed]. unfold step_main.
  unfold goodMain in Hmain.
  destruct (mainpc s) as [[|url rest] | | rs | msg] eqn:Hpc; try done.
  - intros [= <-]. constructor; unfold goodMain; proj_state; try done.
    by rewrite app_nil_r in Hmain.
  - intros [= <-].
    constructor; unfold goodMain; proj_state;
      rewrite ?countPC_snoc, ?select_snoc; cbn [pc targetURL holdsSlot inCritical running
        appended pastProbe weight tag]; rewrite ?app_nil_r; try done; try lia.
    + apply Forall_app. split; [done |]. by repeat constructor.
    + by rewrite fmap_app, <- app_assoc.
  - case_bool_decide as Hz; [| done]. intros [= <-].
    constructor; unfold goodMain; proj_state; done.
Qed.

Lemma step_worker_Some config i net now s s' :
  step_worker config i net now s = Some s' ↔
  (∀ msg, mainpc s ≠ Crashed msg) ∧
  ∃ w, workers s !! i = Some w ∧ worker_move config i w net now s = Some s'.
Proof.
  unfold step_worker. destruct (mainpc s) eqn:Hpc.
  1-3: destruct (workers s !! i) as [w |]; split;
    [ intros Hs; split; [done | eauto]
    | intros [_ (w' & [= <-] & Hs)]; done
    | done
    | intros [_ (w' & Hw & _)]; done ].
  split; [done | intros [Hc _]; by destruct (Hc msg)].
Qed.

Lemma goodMain_move urls s i w pc' sl sc mu wg rs pr se :
  goodMain urls s → workers s !! i = Some w →
  running (pc w) = true → wgCount s = countPC running (workers s) →
  goodMain urls (mkState (mainpc s) (setPC i w pc' (workers s)) sl sc mu wg rs pr se).
Proof.
  unfold goodMain. proj_state. intros Hmain Hi Hrun Hwg.
  destruct (mainpc s); rewrite ?targets_setPC by done; try done.
  destruct Hmain as (_ & _ & Hz). rewrite Hz in Hwg.
  symmetry in Hwg. pose proof (countPC_zero _ _ Hwg i w Hi). congruence.
Qed.

Ltac moves Hi pc' :=
  pose proof (countPC_setPC holdsSlot _ _ pc' _ Hi) as Mslot;
  pose proof (countPC_setPC inCritical _ _ pc' _ Hi) as Mcrit;
  pose proof (countPC_setPC running _ _ pc' _ Hi) as Mrun.

Lemma worker_move_inv config urls i w net now s s' :
  Inv config urls s → workers s !! i = Some w →
  worker_move config i w net now s = Some s' → Inv config urls s'.
Proof.
  intros [Hcap Hsem Hbound Hmu Hwg Hgood Hmain Hres Hprov Hprobed] Hi.
  assert (goodPC config w) as Hw by (eapply Forall_lookup_1; eauto).
  unfold worker_move. unfold goodPC in Hw.
  destruct (pc w) as [| | r | r | | p | p |] eqn:Hpcw.
  - (* acquire *)
    case_bool_decide as Hfree; [| done]. intros [= <-]. moves Hi AtProbe.
    rewrite Hpcw in *. cbn in Mslot, Mcrit, Mrun.
    constructor; proj_state; try lia.
    + by apply Forall_insert.
    + apply goodMain_move; try done. by rewrite Hpcw.
    + rewrite Hres. symmetry. apply select_setPC_same; [done | by rewrite Hpcw].
    + done.
    + rewrite Hprobed. symmetry. apply select_setPC_same; [done | by rewrite Hpcw].
  - (* probe *)
    destruct (testCORS_returns net now (targetURL w) config) as (r & Hr & Hurl).
    assert (probeOf config (targetURL w) r) as Hprobe by (by exists net, now).
    destruct (testCORS net now (targetURL w) config) as [out reqs]. cbn in Hr. subst out.
    intros [= <-]. moves Hi (AtLock r).
    rewrite Hpcw in *. cbn in Mslot, Mcrit, Mrun.
    constructor; proj_state; try lia.
    + by apply Forall_insert.
    + apply goodMain_move; try done. by rewrite Hpcw.
    + rewrite Hres. symmetry. apply select_setPC_same; [done | by rewrite Hpcw].
    + done.
    + rewrite Hprobed, select_setPC_enter by (done || by rewrite Hpcw).
      by rewrite (comm (++)).
  - (* lock *)
    destruct (muLocked s) eqn:Hlocked; [done |]. intros [= <-]. moves Hi (AtAppend r).
    rewrite Hpcw in *. cbn in Mslot, Mcrit, Mrun, Hmu.
    constructor; proj_state; cbn [weight]; try lia.
    + by apply Forall_insert.
    + apply goodMain_move; try done. by rewrite Hpcw.
    + rewrite Hres. symmetry. apply select_setPC_same; [done | by rewrite Hpcw].
    + done.
    + rewrite Hprobed. symmetry. apply select_setPC_same; [done | by rewrite Hpcw].
  - (* append *)
    intros [= <-]. moves Hi AtUnlock.
    rewrite Hpcw in *. cbn in Mslot, Mcrit, Mrun.
    constructor; proj_state; try lia.
    + by apply Forall_insert.
    + apply goodMain_move; try done. by rewrite Hpcw.
    + rewrite fmap_app, Hres, select_setPC_enter by (done || by rewrite Hpcw).
      cbn. destruct Hw as [-> _]. by rewrite (comm (++)).
    + apply Forall_app. split; [done |]. apply Forall_singleton.
      destruct Hw as [-> ?]. done.
    + rewrite Hprobed. symmetry. apply select_setPC_same; [done | by rewrite Hpcw].
  - (* unlock *)
    moves Hi (AtRelease None). rewrite Hpcw in *. cbn in Mslot, Mcrit, Mrun.
    destruct (muLocked s) eqn:Hlocked; cbn in Hmu; [| lia].
    intros [= <-].
    constructor; proj_state; cbn [weight]; try lia.
    + by apply Forall_insert.
    + apply goodMain_move; try done. by rewrite Hpcw.
    + rewrite Hres. symmetry. apply select_setPC_same; [done | by rewrite Hpcw].
    + done.
    + rewrite Hprobed. symmetry. apply select_setPC_same; [done | by rewrite Hpcw].
  - (* release *)
    destruct p as [msg |]; [done |].
    destruct (semLen s) as [| n] eqn:Hlen; [done |]. intros [= <-].
    moves Hi (AtWgDone None). rewrite Hpcw in *. cbn in Mslot, Mcrit, Mrun.
    constructor; proj_state; try lia.
    + by apply Forall_insert.
    + apply goodMain_move; try done. by rewrite Hpcw.
    + rewrite Hres. symmetry. apply select_setPC_same; [done | by rewrite Hpcw].
    + done.
    + rewrite Hprobed. symmetry. apply select_setPC_same; [done | by rewrite Hpcw].
  - (* wg.Done *)
    destruct p as [msg |]; [done |].
    moves Hi Exited. rewrite Hpcw in *. cbn in Mslot, Mcrit, Mrun.
    destruct (wgCount s) as [| n] eqn:Hcount; [lia |]. intros [= <-].
    constructor; proj_state; try lia.
    + by apply Forall_insert.
    + unfold goodMain in *. proj_state.
      destruct (mainpc s); rewrite ?targets_setPC by done; try done.
      destruct Hmain as (_ & _ & ?). lia.
    + rewrite Hres. symmetry. apply select_setPC_same; [done | by rewrite Hpcw].
    + done.
    + rewrite Hprobed. symmetry. apply select_setPC_same; [done | by rewrite Hpcw].
  - done.
Qed.

(** A worker waiting to receive holds a slot, so the buffer is not empty:
    no send is ever completed by a direct hand-over. *)
Lemma step_handoff_None config urls i j s :
  Inv config urls s → step_handoff i j s = None.
Proof.
  intros HInv. unfold step_handoff. destruct (mainpc s); try done.
  all: destruct (workers s !! i) as [wi |]; [| done].
  all: destruct (workers s !! j) as [wj |] eqn:Hj; [| done].
  all: destruct (pc wi); try done.
  all: destruct (pc wj) eqn:Hpcj; try done.
  all: destruct (semLen s) eqn:Hlen; [| done].
  all: pose proof (inv_sem _ _ _ HInv) as Hsem; rewrite Hlen in Hsem; symmetry in Hsem.
  all: pose proof (countPC_zero _ _ Hsem j wj Hj) as Hslot.
  all: by rewrite Hpcj in Hslot.
Qed.

Lemma step_inv config urls e s s' :
  Inv config urls s → step config e s = Some s' → Inv config urls s'.
Proof.
  intros HInv. destruct e as [| i net now | i j]; cbn [step].
  - by apply step_main_inv.
  - intros (_ & w & Hi & Hmove)%step_worker_Some. by eapply worker_move_inv.
  - by rewrite (step_handoff_None config urls).
Qed.

Lemma reachable_inv config urls s0 s :
  bulk_init config urls = Ret s0 → rtc (bulk_step config) s0 s → Inv config urls s.
Proof.
  intros Hinit%bulk_init_inv Hsteps. induction Hsteps as [| s1 s2 s3 [e He] _ IH]; [done |].
  apply IH. by eapply step_inv.
Qed.

(** ** Every step makes progress towards the return *)

Lemma step_measure config e s s' :
  step config e s = Some s' → (measure s' < measure s)%nat.
Proof.
  destruct e as [| i net now | i j]; cbn [step].
  - unfold step_main, measure.
    destruct (mainpc s) as [[|url rest] | | rs | msg] eqn:Hpc; try done.
    + intros [= <-]. proj_state. cbn. lia.
    + intros [= <-]. proj_state. rewrite sum_list_with_app. cbn. lia.
    + case_bool_decide; [| done]. intros [= <-]. proj_state. cbn. lia.
  - intros (_ & w & Hi & Hmove)%step_worker_Some. revert Hmove.
    unfold worker_move, measure, crash.
    destruct (pc w) as [| | r | r | | p | p |] eqn:Hpcw.
    + case_bool_decide; [| done]. intros [= <-]. proj_state.
      pose proof (measure_setPC i w AtProbe _ Hi) as M. rewrite Hpcw in M. cbn in M. lia.
    + destruct (testCORS net now (targetURL w) config) as [[r | msg | msg] reqs];
        intros [= <-]; proj_state.
      * pose proof (measure_setPC i w (AtLock r) _ Hi) as M. rewrite Hpcw in M.
        cbn in M. lia.
      * pose proof (measure_setPC i w (AtRelease (Some msg)) _ Hi) as M.
        rewrite Hpcw in M. cbn in M. lia.
      * pose proof (measure_setPC i w Exited _ Hi) as M. rewrite Hpcw in M.
        cbn in M. cbn [mainMeasure]. lia.
    + destruct (muLocked s); [done |]. intros [= <-]. proj_state.
      pose proof (measure_setPC i w (AtAppend r) _ Hi) as M. rewrite Hpcw in M.
      cbn in M. lia.
    + intros [= <-]. proj_state.
      pose proof (measure_setPC i w AtUnlock _ Hi) as M. rewrite Hpcw in M. cbn in M. lia.
    + destruct (muLocked s); intros [= <-]; proj_state.
      * pose proof (measure_setPC i w (AtRelease None) _ Hi) as M. rewrite Hpcw in M.
        cbn in M. lia.
      * pose proof (measure_setPC i w Exited _ Hi) as M. rewrite Hpcw in M.
        cbn in M. cbn [mainMeasure]. lia.
    + destruct (semLen s); [done |]. intros [= <-]. proj_state.
      pose proof (measure_setPC i w (AtWgDone p) _ Hi) as M. rewrite Hpcw in M.
      cbn in M. lia.
    + pose proof (measure_setPC i w Exited _ Hi) as M. rewrite Hpcw in M. cbn in M.
      destruct (wgCount s); intros [= <-]; proj_state; [cbn [mainMeasure]; lia |].
      destruct p; cbn [mainMeasure]; lia.
    + done.
  - unfold step_handoff, measure. destruct (mainpc s) eqn:Hpc; try done.
    all: destruct (workers s !! i) as [wi |] eqn:Hi; [| done].
    all: destruct (workers s !! j) as [wj |] eqn:Hj; [| done].
    all: destruct (pc wi) eqn:Hpci; try done.
    all: destruct (pc wj) eqn:Hpcj; try done.
    all: destruct (semLen s); [| done].
    all: intros [= <-]; proj_state.
    all: assert (i ≠ j) as Hne by (intros ->; congruence).
    all: pose proof (measure_setPC i wi AtProbe _ Hi) as Mi.
    all: assert (setPC i wi AtProbe (workers s) !! j = Some wj) as Hj'
      by (unfold setPC; by rewrite list_lookup_insert_ne).
    all: pose proof (measure_setPC j wj (AtWgDone p) _ Hj') as Mj.
    all: rewrite Hpci in Mi; rewrite Hpcj in Mj; cbn in Mi, Mj; cbn [mainMeasure]; lia.
Qed.

Lemma countPC_lookup f ws i w :
  ws !! i = Some w → f (pc w) = true → (0 < countPC f ws)%nat.
Proof.
  intros Hi Hf. destruct (countPC f ws) eqn:Hz; [| lia].
  pose proof (countPC_zero _ _ Hz i w Hi). congruence.
Qed.

Lemma countPC_none f ws :
  (∀ i w, ws !! i = Some w → f (pc w) = false) → countPC f ws = 0%nat.
Proof.
  intros Hall. destruct (countPC f ws) eqn:Hz; [done |].
  destruct (countPC_pos f ws) as (i & w & Hi & Hf); [lia |].
  rewrite (Hall i w Hi) in Hf. done.
Qed.

(** With at least one slot, a scan that has not returned can take a step. *)
Lemma progress config urls s :
  Inv config urls s → (0 < semCap s)%nat → (∀ rs, mainpc s ≠ Returned rs) →
  ∃ e s', step config e s = Some s'.
Proof.
  intros HInv Hcap Hrun.
  destruct HInv as [_ Hsem Hbound Hmu Hwg Hgood Hmain _ _ _]. unfold goodMain in Hmain.
  destruct (mainpc s) as [[|url rest] | | rs | msg] eqn:Hpc.
  - exists EvMain. cbn. unfold step_main. rewrite Hpc. eauto.
  - exists EvMain. cbn. unfold step_main. rewrite Hpc. eauto.
  - destruct (decide (wgCount s = 0%nat)) as [Hz | Hnz].
    { exists EvMain. cbn. unfold step_main. rewrite Hpc, bool_decide_eq_true_2 by done. eauto. }
    assert (∀ i w s', workers s !! i = Some w →
              worker_move config i w deadNetwork "" s = Some s' →
              ∃ e s', step config e s = Some s') as Hstep.
    { intros i w s' Hi Hmove. exists (EvWorker i deadNetwork ""), s'. cbn.
      apply step_worker_Some. split; [intros msg; congruence | eauto]. }
    destruct (decide (0 < countPC freePC (workers s))%nat) as [Hfree | Hnofree].
    { destruct (countPC_pos _ _ Hfree) as (i & w & Hi & Hf).
      destruct (worker_move config i w deadNetwork "" s) as [s' |] eqn:Hmove; [eauto |].
      exfalso. revert Hmove. unfold worker_move.
      destruct (pc w); try done.
      - by destruct (testCORS _ _ _ _) as [[] ?].
      - by destruct (muLocked s).
      - by destruct (wgCount s). }
    assert (∀ i w, workers s !! i = Some w → freePC (pc w) = false) as Hnf.
    { apply countPC_zero. lia. }
    destruct (decide (0 < countPC atRelease (workers s))%nat) as [Hrel | Hnorel].
    { destruct (countPC_pos _ _ Hrel) as (i & w & Hi & Hf).
      destruct (pc w) as [| | | | | p | |] eqn:Hpcw; try done.
      assert (0 < semLen s)%nat as Hlen.
      { rewrite Hsem. eapply countPC_lookup; [done |]. by rewrite Hpcw. }
      destruct (semLen s) as [| n] eqn:Hn; [lia |].
      eapply (Hstep i w). { done. } unfold worker_move. by rewrite Hpcw, Hn. }
    assert (∀ i w, workers s !! i = Some w → atRelease (pc w) = false) as Hnr.
    { apply countPC_zero. lia. }
    destruct (decide (0 < countPC atLock (workers s))%nat) as [Hlock | Hnolock].
    { destruct (countPC_pos _ _ Hlock) as (i & w & Hi & Hf).
      destruct (pc w) as [| | r | | | | |] eqn:Hpcw; try done.
      assert (muLocked s = false) as Hfreemu.
      { rewrite (countPC_none inCritical) in Hmu; [by destruct (muLocked s) |].
        intros i' w' Hi'. pose proof (Hnf i' w' Hi'). by destruct (pc w'). }
      eapply (Hstep i w). { done. } unfold worker_move. by rewrite Hpcw, Hfreemu. }
    assert (∀ i w, workers s !! i = Some w → atLock (pc w) = false) as Hnl.
    { apply countPC_zero. lia. }
    destruct (countPC_pos running (workers s)) as (i & w & Hi & Hf); [lia |].
    pose proof (Hnf i w Hi). pose proof (Hnr i w Hi). pose proof (Hnl i w Hi).
    destruct (pc w) eqn:Hpcw; try done.
    assert (semLen s = 0%nat) as Hempty.
    { rewrite Hsem. apply countPC_none. intros i' w' Hi'.
      pose proof (Hnf i' w' Hi'). pose proof (Hnr i' w' Hi'). pose proof (Hnl i' w' Hi').
      by destruct (pc w'). }
    eapply (Hstep i w). { done. }
    unfold worker_move. rewrite Hpcw, bool_decide_eq_true_2 by lia. done.
  - by destruct (Hrun rs).
  - done.
Qed.

(** ** What holds when the scan returns *)

Lemma returned_facts config urls s rs :
  Inv config urls s → mainpc s = Returned rs →
  rs = results s ∧
  targetURL <$> workers s = urls ∧
  Forall (λ w, pc w = Exited) (workers s) ∧
  URL <$> rs ≡ₚ urls ∧
  probed s ≡ₚ urls ∧
  semLen s = 0%nat ∧
  Forall (λ r, probeOf config (URL r) r) rs.
Proof.
  intros [_ Hsem _ _ Hwg _ Hmain Hres Hprov Hprobed] Hpc.
  unfold goodMain in Hmain. rewrite Hpc in Hmain. destruct Hmain as (Htargets & -> & Hz).
  rewrite Hz in Hwg. symmetry in Hwg.
  assert (∀ i w, workers s !! i = Some w → pc w = Exited) as Hexited.
  { intros i w Hi. pose proof (countPC_zero _ _ Hwg i w Hi). by destruct (pc w). }
  split_and!; try done.
  - apply Forall_lookup_2. intros i w Hi. by eapply Hexited.
  - rewrite Hres, select_all, Htargets; [done |].
    intros i w Hi. by rewrite (Hexited i w Hi).
  - rewrite Hprobed, select_all, Htargets; [done |].
    intros i w Hi. by rewrite (Hexited i w Hi).
  - rewrite Hsem. apply countPC_none. intros i w Hi. by rewrite (Hexited i w Hi).
Qed.

Lemma never_crashed config urls s msg :
  Inv config urls s → mainpc s ≠ Crashed msg.
Proof.
  intros [_ _ _ _ _ _ Hmain _ _ _] Hpc. unfold goodMain in Hmain. by rewrite Hpc in Hmain.
Qed.

(** ** Termination *)

Lemma run_rtc config sched : ∀ s s',
  run config sched s = Some s' → rtc (bulk_step config) s s'.
Proof.
  induction sched as [|e sched IH]; intros s s'; cbn [run].
  - intros [= <-]. apply rtc_refl.
  - destruct (step config e s) as [s1 |] eqn:He; [| done]. intros Hrun.
    eapply rtc_l; [by exists e | by apply IH].
Qed.

Lemma nsteps_measure config n s s' :
  nsteps (bulk_step config) n s s' → (n + measure s' ≤ measure s)%nat.
Proof.
  induction 1 as [| n s1 s2 s3 [e He] _ IH]; [lia |].
  apply step_measure in He. lia.
Qed.

Lemma eventually_returns config urls : ∀ s,
  Inv config urls s → (0 < semCap s)%nat →
  ∃ s' rs, rtc (bulk_step config) s s' ∧ mainpc s' = Returned rs.
Proof.
  intros s. remember (measure s) as n eqn:Hn. revert s Hn.
  induction n as [n IH] using lt_wf_ind. intros s -> HInv Hcap.
  destruct (mainpc s) as [rest | | rs | msg] eqn:Hpc.
  3: { exists s, rs. split; [apply rtc_refl | done]. }
  3: { by destruct (never_crashed _ _ _ msg HInv). }
  all: destruct (progress config urls s HInv Hcap) as (e & s1 & He); [congruence |].
  all: pose proof (step_inv _ _ _ _ _ HInv He) as HInv1.
  all: destruct (IH (measure s1) (step_measure _ _ _ _ He) s1) as (s' & rs & Hsteps & Hret);
    [ done | done
    | rewrite (inv_cap _ _ _ HInv1); by rewrite <- (inv_cap _ _ _ HInv) | ].
  all: exists s', rs; split; [eapply rtc_l; [by exists e | done] | done].
Qed.

(** ** The bulk scan ([testBulkCORS], lines 168-189) *)

(** C1.  Whenever the bulk scan over the targets [urls] returns, the
    returned collection is the shared result list, it has exactly one entry
    per target (as many entries as targets, and the URLs of the entries are
    the targets, each as often as it was submitted), every entry is a result
    of [testCORS] on its own target, [testCORS] has been called once per
    target, and every spawned worker has run to its end; this holds for
    every concurrency limit.  With a limit of at least one
    the scan does return: from every reachable state some continuation
    reaches the return, and no run is longer than [8 * N + 2] steps.  The
    process never crashes on the way. *)
Theorem bulk_scan_one_result_per_target config urls s0 :
  bulk_init config urls = Ret s0 →
  (∀ s rs, rtc (bulk_step config) s0 s → mainpc s = Returned rs →
     length rs = length urls ∧
     URL <$> rs ≡ₚ urls ∧
     probed s ≡ₚ urls ∧
     rs = results s ∧
     targetURL <$> workers s = urls ∧
     Forall (λ w, pc w = Exited) (workers s) ∧
     Forall (λ r, probeOf config (URL r) r) rs) ∧
  ((1 ≤ Concurrency config)%Z →
     (∀ s, rtc (bulk_step config) s0 s →
        ∃ s' rs, rtc (bulk_step config) s s' ∧ mainpc s' = Returned rs) ∧
     (∀ n s, nsteps (bulk_step config) n s0 s → (n ≤ 8 * length urls + 2)%nat)) ∧
  (∀ s msg, rtc (bulk_step config) s0 s → mainpc s ≠ Crashed msg) ∧
  (∀ fs filename rs, readTargets fs filename = Ret urls →
     testBulkCORS_returns fs filename config rs →
     length rs = length urls ∧ URL <$> rs ≡ₚ urls).
Proof.
  intros Hinit.
  assert (∀ s rs, rtc (bulk_step config) s0 s → mainpc s = Returned rs →
            length rs = length urls ∧ URL <$> rs ≡ₚ urls ∧ probed s ≡ₚ urls ∧
            rs = results s ∧ targetURL <$> workers s = urls ∧
            Forall (λ w, pc w = Exited) (workers s) ∧
            Forall (λ r, probeOf config (URL r) r) rs) as Hsafe.
  { intros s rs Hsteps Hret.
    destruct (returned_facts config urls s rs) as (? & ? & ? & Hperm & ? & ? & ?);
      [by eapply reachable_inv | done |].
    split_and!; try done. apply Permutation_length in Hperm.
    by rewrite length_fmap in Hperm. }
  split_and!; [done | | |].
  - intros Hpos. split.
    + intros s Hsteps. pose proof (reachable_inv _ _ _ _ Hinit Hsteps) as HInv.
      apply (eventually_returns config urls s HInv).
      rewrite (inv_cap _ _ _ HInv). lia.
    + intros n s Hn. apply nsteps_measure in Hn.
      assert (measure s0 = (8 * length urls + 2)%nat) as Hm.
      { revert Hinit. unfold bulk_init. destruct (Concurrency config <? 0)%Z; [done |].
        intros [= <-]. unfold measure. cbn. lia. }
      lia.
  - intros s msg Hsteps. eapply never_crashed. by eapply reachable_inv.
  - intros fs filename rs Hread (urls' & s0' & s & Hread' & Hinit' & Hsteps & Hret).
    rewrite Hread in Hread'. injection Hread' as <-.
    rewrite Hinit in Hinit'. injection Hinit' as <-.
    destruct (Hsafe s rs Hsteps Hret) as (? & ? & _). done.
Qed.

Lemma countPC_mono f g ws :
  (∀ p, f p = true → g p = true) → (countPC f ws ≤ countPC g ws)%nat.
Proof.
  intros Hfg. rewrite !countPC_select.
  induction ws as [|w ws IH]; [done |]. rewrite !select_cons, !length_app.
  destruct (f (pc w)) eqn:Hf; [rewrite (Hfg _ Hf); cbn; lia |].
  destruct (g (pc w)); cbn; lia.
Qed.

Lemma countPC_probing_two ws i j wi wj :
  i ≠ j → ws !! i = Some wi → ws !! j = Some wj →
  pc wi = AtProbe → pc wj = AtProbe → (2 ≤ countPC probing ws)%nat.
Proof.
  intros Hne Hi Hj Hpi Hpj.
  pose proof (countPC_setPC probing i wi Exited ws Hi) as M. rewrite Hpi in M. cbn in M.
  assert (setPC i wi Exited ws !! j = Some wj) as Hj'
    by (unfold setPC; by rewrite list_lookup_insert_ne).
  pose proof (countPC_lookup probing _ j wj Hj') as Hpos. rewrite Hpj in Hpos.
  specialize (Hpos eq_refl). lia.
Qed.

(** C5.  In every state the bulk scan can reach, the number of workers
    inside their [testCORS] call is at most the number of workers holding a
    slot, which is the number of elements buffered in the semaphore and at
    most the concurrency limit; with a limit of one, no two workers are
    inside [testCORS] at the same time.  A worker that has reached its
    deferred receive is never blocked there, whatever the outcome of its
    probe, and gives back exactly one slot; when the scan returns every slot
    has been given back. *)
Theorem bulk_scan_bounded_concurrency config urls s0 s :
  bulk_init config urls = Ret s0 → rtc (bulk_step config) s0 s →
  (countPC probing (workers s) ≤ countPC holdsSlot (workers s))%nat ∧
  semLen s = countPC holdsSlot (workers s) ∧
  (Z.of_nat (countPC holdsSlot (workers s)) ≤ Concurrency config)%Z ∧
  (Concurrency config = 1%Z →
     ∀ i j wi wj, workers s !! i = Some wi → workers s !! j = Some wj →
       pc wi = AtProbe → pc wj = AtProbe → i = j) ∧
  (∀ i w p net now, workers s !! i = Some w → pc w = AtRelease p →
     ∃ s', step config (EvWorker i net now) s = Some s' ∧
           S (semLen s') = semLen s ∧
           workers s' !! i = Some (mkWorker (targetURL w) (AtWgDone p))) ∧
  (∀ rs, mainpc s = Returned rs → semLen s = 0%nat).
Proof.
  intros Hinit Hsteps. pose proof (reachable_inv _ _ _ _ Hinit Hsteps) as HInv.
  pose proof (inv_sem _ _ _ HInv) as Hsem. pose proof (inv_bound _ _ _ HInv) as Hbound.
  pose proof (inv_cap _ _ _ HInv) as Hcap.
  assert (0 ≤ Concurrency config)%Z as Hnonneg.
  { revert Hinit. unfold bulk_init. destruct (Concurrency config <? 0)%Z eqn:Hneg; [done | lia]. }
  split_and!.
  - apply countPC_mono. by intros [].
  - done.
  - lia.
  - intros Hone i j wi wj Hi Hj Hpi Hpj. destruct (decide (i = j)) as [| Hne]; [done |].
    pose proof (countPC_probing_two _ i j wi wj Hne Hi Hj Hpi Hpj) as Htwo.
    pose proof (countPC_mono probing holdsSlot (workers s)) as Hle.
    assert (countPC probing (workers s) ≤ countPC holdsSlot (workers s))%nat
      by (apply Hle; by intros []).
    lia.
  - intros i w p net now Hi Hpcw.
    assert (0 < semLen s)%nat as Hlen.
    { rewrite Hsem. eapply countPC_lookup; [done |]. by rewrite Hpcw. }
    destruct (semLen s) as [| n] eqn:Hn; [lia |].
    eexists. split.
    + cbn [step]. apply step_worker_Some. split; [intros msg; by eapply never_crashed |].
      exists w. split; [done |]. unfold worker_move. rewrite Hpcw, Hn. reflexivity.
    + proj_state. split; [done |]. unfold setPC.
      apply list_lookup_insert_eq. by eapply lookup_lt_Some.
  - intros rs Hret.
    by destruct (returned_facts _ _ _ _ HInv Hret) as (_ & _ & _ & _ & _ & ? & _).
Qed.

(** ** A concurrency limit of zero *)

(** With no slot, every spawned worker stands at its send. *)
Lemma zero_cap_step config e s s' :
  semCap s = 0%nat → Forall (λ w, pc w = AtAcquire) (workers s) →
  step config e s = Some s' →
  e = EvMain ∧ semCap s' = 0%nat ∧ Forall (λ w, pc w = AtAcquire) (workers s').
Proof.
  intros Hcap Hall. destruct e as [| i net now | i j]; cbn [step].
  - unfold step_main. destruct (mainpc s) as [[|url rest] | | rs | msg]; try done.
    + by intros [= <-].
    + intros [= <-]. proj_state. split_and!; try done.
      apply Forall_app. split; [done |]. by repeat constructor.
    + case_bool_decide; [| done]. by intros [= <-].
  - intros (_ & w & Hi & Hmove)%step_worker_Some. exfalso. revert Hmove.
    unfold worker_move. rewrite (Forall_lookup_1 _ _ _ _ Hall Hi).
    rewrite bool_decide_eq_false_2 by lia. done.
  - unfold step_handoff. destruct (mainpc s); try done.
    all: destruct (workers s !! i) as [wi |]; [| done].
    all: destruct (workers s !! j) as [wj |] eqn:Hj; [| done].
    all: rewrite (Forall_lookup_1 _ _ _ _ Hall Hj).
    all: by destruct (pc wi).
Qed.

Lemma zero_cap_reachable config urls s0 s :
  Concurrency config = 0%Z → bulk_init config urls = Ret s0 →
  rtc (bulk_step config) s0 s →
  semCap s = 0%nat ∧ Forall (λ w, pc w = AtAcquire) (workers s).
Proof.
  intros Hzero Hinit Hsteps.
  assert (semCap s0 = 0%nat ∧ Forall (λ w, pc w = AtAcquire) (workers s0)) as Hstart.
  { revert Hinit. unfold bulk_init. rewrite Hzero. cbn. by intros [= <-]. }
  clear Hinit. induction Hsteps as [| s1 s2 s3 [e He] _ IH]; [done |].
  apply IH. destruct Hstart as [Hcap Hall].
  by destruct (zero_cap_step _ _ _ _ Hcap Hall He) as (_ & ? & ?).
Qed.

Lemma zero_cap_never_returns config urls s0 s rs :
  Concurrency config = 0%Z → urls ≠ [] → bulk_init config urls = Ret s0 →
  rtc (bulk_step config) s0 s → mainpc s ≠ Returned rs.
Proof.
  intros Hzero Hne Hinit Hsteps Hret.
  destruct (zero_cap_reachable _ _ _ _ Hzero Hinit Hsteps) as [_ Hall].
  destruct (returned_facts config urls s rs) as (_ & Htargets & Hexited & _);
    [by eapply reachable_inv | done |].
  destruct (workers s) as [| w ws]; [by destruct urls |].
  apply Forall_cons in Hall as [Ha _]. apply Forall_cons in Hexited as [Hx _]. congruence.
Qed.

Lemma readTargets_nonempty fs filename urls :
  readTargets fs filename = Ret urls → urls ≠ [].
Proof.
  unfold readTargets. destruct (os_Open fs filename) as [file | err]; [| done].
  destruct (scanErr file); [done |]. case_bool_decide as Hlen; [done |].
  intros [= <-] Hnil. by rewrite Hnil in Hlen.
Qed.

Lemma spawn_all config : ∀ rest s,
  mainpc s = Spawning rest →
  ∃ s', rtc (bulk_step config) s s' ∧ mainpc s' = AtWait ∧
        length (workers s') = (length (workers s) + length rest)%nat.
Proof.
  induction rest as [|url rest IH]; intros s Hpc.
  - eexists. split; [apply rtc_once; exists EvMain; cbn; unfold step_main; by rewrite Hpc |].
    proj_state. split; [done | cbn; lia].
  - edestruct (IH (mkState (Spawning rest) (workers s ++ [mkWorker url AtAcquire])
                     (semLen s) (semCap s) (muLocked s) (S (wgCount s))
                     (results s) (probed s) (sent s))) as (s' & Hsteps & Hwait & Hlen);
      [done |].
    exists s'. split; [| split; [done |]].
    + eapply rtc_l; [| exact Hsteps]. exists EvMain. cbn. unfold step_main. by rewrite Hpc.
    + revert Hlen. proj_state. rewrite length_app. cbn. lia.
Qed.

(** C10.  [main] hands the value of the [-concurrency] flag to the scan as
    it is.  With a limit of zero and at least one target, no reachable
    state of the scan has returned, every spawned worker stands at its
    send on the semaphore and can neither step nor be handed a slot, and
    the scan reaches a state in which all workers are spawned and nothing
    can move.  Hence a scan that returns had a limit of at least one; and
    with a limit of at least one every reachable state can be continued to
    the return. *)
Theorem zero_concurrency_blocks_forever flags :
  Concurrency (main_config flags) = concurrency flags ∧
  (∀ config urls s0 s,
     Concurrency config = 0%Z → urls ≠ [] → bulk_init config urls = Ret s0 →
     rtc (bulk_step config) s0 s →
     (∀ rs, mainpc s ≠ Returned rs) ∧
     Forall (λ w, pc w = AtAcquire) (workers s) ∧
     (∀ i net now, step config (EvWorker i net now) s = None) ∧
     (∀ i j, step config (EvHandoff i j) s = None)) ∧
  (∀ config urls s0,
     Concurrency config = 0%Z → urls ≠ [] → bulk_init config urls = Ret s0 →
     ∃ s, rtc (bulk_step config) s0 s ∧ mainpc s = AtWait ∧
          length (workers s) = length urls ∧ ∀ e, step config e s = None) ∧
  (∀ fs filename config rs,
     testBulkCORS_returns fs filename config rs → (1 ≤ Concurrency config)%Z) ∧
  (∀ config urls s0 s,
     (1 ≤ Concurrency config)%Z → bulk_init config urls = Ret s0 →
     rtc (bulk_step config) s0 s →
     ∃ s' rs, rtc (bulk_step config) s s' ∧ mainpc s' = Returned rs).
Proof.
  assert (∀ config urls s0 s,
     Concurrency config = 0%Z → bulk_init config urls = Ret s0 →
     rtc (bulk_step config) s0 s →
     ∀ e, e ≠ EvMain → step config e s = None) as Hblocked.
  { intros config urls s0 s Hzero Hinit Hsteps e He.
    destruct (zero_cap_reachable _ _ _ _ Hzero Hinit Hsteps) as [Hcap Hall].
    destruct (step config e s) as [s' |] eqn:Hs; [| done].
    by destruct (zero_cap_step _ _ _ _ Hcap Hall Hs) as (? & _). }
  split_and!.
  - done.
  - intros config urls s0 s Hzero Hne Hinit Hsteps. split_and!.
    + intros rs. by eapply zero_cap_never_returns.
    + by destruct (zero_cap_reachable _ _ _ _ Hzero Hinit Hsteps).
    + intros i net now. by eapply Hblocked.
    + intros i j. by eapply Hblocked.
  - intros config urls s0 Hzero Hne Hinit.
    assert (mainpc s0 = Spawning urls ∧ workers s0 = []) as [Hpc Hws].
    { revert Hinit. unfold bulk_init. destruct (Concurrency config <? 0)%Z; [done |].
      by intros [= <-]. }
    destruct (spawn_all config urls s0 Hpc) as (s & Hsteps & Hwait & Hlen).
    rewrite Hws in Hlen. cbn in Hlen.
    exists s. split_and!; try done.
    intros e. destruct e as [| i net now | i j]; [| by eapply Hblocked..].
    cbn. unfold step_main. rewrite Hwait.
    pose proof (reachable_inv _ _ _ _ Hinit Hsteps) as HInv.
    destruct (zero_cap_reachable _ _ _ _ Hzero Hinit Hsteps) as [_ Hall].
    rewrite bool_decide_eq_false_2; [done |].
    rewrite (inv_wg _ _ _ HInv). intros Hz.
    destruct (workers s) as [| w ws] eqn:Hw; [destruct urls; cbn in Hlen; done |].
    apply Forall_cons in Hall as [Ha _].
    pose proof (countPC_zero _ _ Hz 0%nat w eq_refl) as Hr. by rewrite Ha in Hr.
  - intros fs filename config rs (urls & s0 & s & Hread & Hinit & Hsteps & Hret).
    apply readTargets_nonempty in Hread.
    assert (0 ≤ Concurrency config)%Z as Hnonneg.
    { revert Hinit. unfold bulk_init.
      destruct (Concurrency config <? 0)%Z eqn:Hneg; [done | lia]. }
    destruct (decide (Concurrency config = 0%Z)) as [Hzero | Hnz]; [| lia].
    by destruct (zero_cap_never_returns _ _ _ _ rs Hzero Hread Hinit Hsteps).
  - intros config urls s0 s Hpos Hinit Hsteps.
    pose proof (reachable_inv _ _ _ _ Hinit Hsteps) as HInv.
    apply (eventually_returns config urls s HInv). rewrite (inv_cap _ _ _ HInv). lia.
Qed.

(** ** No valid target ([testBulkCORS], lines 160-166, and [main]) *)

(** C6.  When the input file opens and none of its lines is a valid
    target (an empty file included), reading the targets ends in
    [log.Fatal] with a non-empty message, which is [No valid URLs found in
    file] unless the scanner itself reported an error.  The run of [main]
    then ends with exit code 1 and that message, without a report file,
    without a summary and without a single call of [testCORS]; it has no
    other way to end, and [testBulkCORS] does not return. *)
Theorem no_valid_url_is_fatal fs flags file :
  showVersion flags = false → urlInput flags = "" → fileInput flags ≠ "" →
  os_Open fs (fileInput flags) = Ok file →
  collectURLs (scanLines file) = [] →
  (∃ msg,
     readTargets fs (fileInput flags) = Fatal msg ∧
     msg ≠ "" ∧
     (scanErr file = None → msg = "No valid URLs found in file") ∧
     main_run fs flags (mkEnd 1 (Some msg) None None []) ∧
     (∀ e, main_run fs flags e → e = mkEnd 1 (Some msg) None None [])) ∧
  (∀ config rs, ¬ testBulkCORS_returns fs (fileInput flags) config rs).
Proof.
  intros Hversion Hurl Hfile Hopen Hnone.
  assert (∃ msg, readTargets fs (fileInput flags) = Fatal msg ∧ msg ≠ "" ∧
            (scanErr file = None → msg = "No valid URLs found in file"))
    as (msg & Hread & Hmsg & Hnoerr).
  { unfold readTargets. rewrite Hopen, Hnone.
    destruct (scanErr file) as [err |]; eexists; (split; [reflexivity |]); done. }
  split.
  - exists msg. split_and!; try done.
    + by apply run_bulk_fatal.
    + intros e Hrun. inversion Hrun; subst; try congruence.
  - intros config rs (urls & s0 & s & Hread' & _). congruence.
Qed.

End Properties.

(** * Further properties *)

Lemma append_assoc s t u : (s +:+ t) +:+ u = s +:+ (t +:+ u).
Proof.
  induction s as [|c s IH]; [done |].
  change (String c ((s +:+ t) +:+ u) = String c (s +:+ t +:+ u)). by rewrite IH.
Qed.

Lemma append_nil_r s : s +:+ "" = s.
Proof.
  induction s as [|c s IH]; [done |].
  change (String c (s +:+ "") = String c s). by rewrite IH.
Qed.

Ltac proj_state :=
  cbn [mainpc workers semLen semCap muLocked wgCount results probed sent].

Section Extras.
Context `{GoStdlib}.

(** ** Reading the targets (lines 145-166) *)

(** The targets collected from a file are collected line by line: the list
    for two chunks of lines is the concatenation of the lists for each, so
    order and repetitions of the lines are kept, and there are never more
    targets than lines. *)
Theorem collectURLs_app l1 l2 :
  collectURLs (l1 ++ l2) = collectURLs l1 ++ collectURLs l2 ∧
  (length (collectURLs l1) ≤ length l1)%nat.
Proof.
  unfold collectURLs. rewrite !foldl_collectLine. cbn [app].
  rewrite fmap_app, filter_app. split; [done |].
  etrans; [apply length_filter |]. by rewrite length_fmap.
Qed.

(** A target that passed the filter of the bulk scan never fails request
    construction when the configured method is acceptable: [testCORS] sends
    exactly one request for it, to the parsed target, with the spoofed
    origin of that target. *)
Theorem collected_target_is_probed lines config u net now :
  u ∈ collectURLs lines →
  validMethod (if bool_decide (Method config = "") then "GET" else Method config) = true →
  ∃ parsed req,
    url_Parse u = Ok parsed ∧ Scheme parsed ≠ "" ∧ Host parsed ≠ "" ∧
    buildRequest u config = Ok req ∧
    Header_Get "Origin" req = spoofedOrigin parsed ∧
    (testCORS net now u config).2 = [req].
Proof.
  intros Hin Hmethod.
  unfold collectURLs in Hin. rewrite foldl_collectLine in Hin.
  apply list_elem_of_filter in Hin as [[_ Hs] _].
  destruct (url_Parse u) as [parsed | e] eqn:Hparse; [| done]. destruct Hs as [Hscheme Hhost].
  assert (∃ req, buildRequest u config = Ok req) as [req Hreq].
  { unfold buildRequest, http_NewRequest. rewrite Hmethod, Hparse. cbn. eauto. }
  destruct (buildRequest_Ok _ _ _ Hreq) as (parsed' & Hparse' & Horigin).
  rewrite Hparse in Hparse'. injection Hparse' as <-.
  exists parsed, req. split_and!; try done.
  rewrite testCORS_closed, Hreq. by destruct (client_Do net _ req).
Qed.

(** Every failure to read the targets ends the run before anything is
    scanned: when the file cannot be opened, and when the scanner reports
    an error (even if valid targets were read before it), [main] has
    exactly one way to end: exit code 1 with the corresponding message, no
    report, no summary and no probe. *)
Theorem main_file_errors_are_fatal fs flags :
  showVersion flags = false → urlInput flags = "" → fileInput flags ≠ "" →
  (∀ err, os_Open fs (fileInput flags) = Err err →
     main_run fs flags (mkEnd 1 (Some ("Error opening file: " +:+ err)) None None []) ∧
     ∀ e, main_run fs flags e →
       e = mkEnd 1 (Some ("Error opening file: " +:+ err)) None None []) ∧
  (∀ file err, os_Open fs (fileInput flags) = Ok file → scanErr file = Some err →
     main_run fs flags (mkEnd 1 (Some ("Error reading file: " +:+ err)) None None []) ∧
     ∀ e, main_run fs flags e →
       e = mkEnd 1 (Some ("Error reading file: " +:+ err)) None None []).
Proof.
  intros Hversion Hurl Hfile.
  assert (∀ msg, readTargets fs (fileInput flags) = Fatal msg →
            main_run fs flags (mkEnd 1 (Some msg) None None []) ∧
            ∀ e, main_run fs flags e → e = mkEnd 1 (Some msg) None None []) as Hfatal.
  { intros msg Hread. split; [by apply run_bulk_fatal |].
    intros e Hrun. inversion Hrun; subst; congruence. }
  split.
  - intros err Hopen. apply Hfatal. unfold readTargets. by rewrite Hopen.
  - intros file err Hopen Hscan. apply Hfatal. unfold readTargets. by rewrite Hopen, Hscan.
Qed.

(** ** The result of a probe (lines 93-142) *)

(** A result with a non-empty error field carries no data of a response:
    status code zero, empty header map, has-CORS false, empty CORS list.
    So a result that reports CORS headers has an empty error field, and an
    empty error field means that a response was received. *)
Theorem testCORS_error_excludes_data net now targetURL config r :
  (testCORS net now targetURL config).1 = Ret r →
  URL r = targetURL ∧ Timestamp r = now ∧
  (Error r ≠ "" →
     StatusCode r = 0%Z ∧ Headers r = Some ∅ ∧ HasCORS r = false ∧
     CORSHeaders r = Some [] ∧
     ((∃ err, Error r = "Error creating request: " +:+ err) ∨
      (∃ err, Error r = "Request failed: " +:+ err))) ∧
  (HasCORS r = true → Error r = "") ∧
  (Error r = "" ↔
   ∃ req resp, buildRequest targetURL config = Ok req ∧
               client_Do net (mkClient (Timeout config)) req = Ok resp).
Proof.
  rewrite testCORS_closed.
  destruct (buildRequest targetURL config) as [req | err].
  - destruct (client_Do net _ req) as [resp | err] eqn:Hdo; intros [= <-]; cbn.
    + split_and!; try done. split; [intros _; eauto | done].
    + split_and!; try done.
      * intros _. split_and!; try done. right. by exists err.
      * split; [done |]. intros (req' & resp' & [= <-] & Hdo'). congruence.
  - intros [= <-]. cbn. split_and!; try done.
    + intros _. split_and!; try done. left. by exists err.
    + split; [done | intros (? & ? & ? & _); done].
Qed.

(** Every name in the CORS-header list of a result is a key of its header
    map (the report's lookup of the value never misses), the keys of the
    header map are the header names of the response, and the list is no
    longer than the map is large. *)
Theorem testCORS_cors_headers_have_values net now targetURL config r :
  (testCORS net now targetURL config).1 = Ret r →
  (∀ key, key ∈ elems (CORSHeaders r) → is_Some (entries (Headers r) !! key)) ∧
  (length (elems (CORSHeaders r)) ≤ size (entries (Headers r)))%nat ∧
  (∀ req resp, buildRequest targetURL config = Ok req →
     client_Do net (mkClient (Timeout config)) req = Ok resp →
     dom (entries (Headers r)) = dom (RespHeader resp)).
Proof.
  rewrite testCORS_closed.
  assert (∀ resp, length (corsKeys (map_to_list (RespHeader resp)).*1)
                  ≤ size (joined <$> RespHeader resp))%nat as Hlen.
  { intros resp. etrans; [apply length_filter |].
    by rewrite length_fmap, length_map_to_list, map_size_fmap. }
  destruct (buildRequest targetURL config) as [req | err].
  - destruct (client_Do net _ req) as [resp | err] eqn:Hdo; intros [= <-]; cbn.
    + split_and!.
      * intros key [Hin _]%elem_of_corsKeys. apply keys_map_to_list in Hin.
        rewrite lookup_fmap. destruct Hin as [v ->]. by eexists.
      * apply Hlen.
      * intros req' resp' [= <-]. rewrite Hdo. intros [= <-]. by rewrite dom_fmap_L.
    + split_and!; [by intros key ?%elem_of_nil | lia | by intros ? ? [= <-]; rewrite Hdo].
  - intros [= <-]. cbn. split_and!; [by intros key ?%elem_of_nil | lia | done].
Qed.

(** ** The console summary (lines 231-255) *)

Lemma probeOf_flagged_succeeded config u r :
  probeOf config u r → HasCORS r = true → Error r = "".
Proof.
  intros (net & now & Hr). rewrite testCORS_closed in Hr.
  destruct (buildRequest u config) as [req | err].
  - destruct (client_Do net _ req); by injection Hr as <-.
  - by injection Hr as <-.
Qed.

Lemma printSummary_closed rs :
  printSummary rs =
  mkSummary (Z.of_nat (length rs)) (Z.of_nat (length (filter succeeded rs)))
    (Z.of_nat (length (filter flagged rs)))
    (if (0 <? Z.of_nat (length rs))%Z
     then RateQuotient (Z.of_nat (length (filter succeeded rs))) (Z.of_nat (length rs))
     else RateZeroLiteral).
Proof. unfold printSummary. by rewrite foldl_tally. Qed.

(** The summary does not depend on the order of the results: two result
    lists that are permutations of each other print the same summary. *)
Theorem printSummary_permutation rs rs' :
  rs ≡ₚ rs' → printSummary rs = printSummary rs'.
Proof.
  intros Hperm. rewrite !printSummary_closed.
  assert (length rs = length rs') as -> by (by apply Permutation_length).
  assert (length (filter succeeded rs) = length (filter succeeded rs')) as ->
    by (apply Permutation_length; by rewrite Hperm).
  assert (length (filter flagged rs) = length (filter flagged rs')) as ->
    by (apply Permutation_length; by rewrite Hperm).
  done.
Qed.

(** The counters are additive over concatenation and bounded by the total;
    and when every result comes from [testCORS], the targets with CORS
    headers are among the successful ones. *)
Theorem printSummary_bounds config rs rs' :
  sumTotal (printSummary (rs ++ rs')) =
    (sumTotal (printSummary rs) + sumTotal (printSummary rs'))%Z ∧
  sumSuccessful (printSummary (rs ++ rs')) =
    (sumSuccessful (printSummary rs) + sumSuccessful (printSummary rs'))%Z ∧
  sumWithCORS (printSummary (rs ++ rs')) =
    (sumWithCORS (printSummary rs) + sumWithCORS (printSummary rs'))%Z ∧
  (0 ≤ sumSuccessful (printSummary rs) ≤ sumTotal (printSummary rs))%Z ∧
  (0 ≤ sumWithCORS (printSummary rs) ≤ sumTotal (printSummary rs))%Z ∧
  (Forall (λ r, probeOf config (URL r) r) rs →
     (sumWithCORS (printSummary rs) ≤ sumSuccessful (printSummary rs))%Z).
Proof.
  rewrite !printSummary_closed. cbn [sumTotal sumSuccessful sumWithCORS].
  rewrite !filter_app, !length_app.
  pose proof (length_filter succeeded rs). pose proof (length_filter flagged rs).
  split_and!; try lia.
  intros Hprobes. apply inj_le.
  induction rs as [|r rs IH]; [done |].
  apply Forall_cons in Hprobes as [Hr Hrest].
  rewrite !filter_cons. specialize (IH (length_filter _ _) (length_filter _ _) Hrest).
  pose proof (probeOf_flagged_succeeded _ _ _ Hr) as Hflag.
  unfold flagged at 1, succeeded at 1.
  destruct (decide (HasCORS r = true)) as [Hc | Hc].
  - rewrite decide_True by (by apply Hflag). cbn. lia.
  - destruct (decide (Error r = "")); cbn; lia.
Qed.

(** ** The bulk scan (lines 168-189) *)

Lemma countPC_two f pc0 ws i j wi wj :
  f pc0 = false → i ≠ j → ws !! i = Some wi → ws !! j = Some wj →
  f (pc wi) = true → f (pc wj) = true → (2 ≤ countPC f ws)%nat.
Proof.
  intros Hpc0 Hne Hi Hj Hfi Hfj.
  pose proof (countPC_setPC f i wi pc0 ws Hi) as M. rewrite Hfi, Hpc0 in M. cbn in M.
  assert (setPC i wi pc0 ws !! j = Some wj) as Hj'
    by (unfold setPC; by rewrite list_lookup_insert_ne).
  pose proof (countPC_lookup f _ j wj Hj' Hfj). lia.
Qed.

Lemma rtc_invariant {A} (R : relation A) (P : A → Prop) x y :
  (∀ a b, P a → R a b → P b) → P x → rtc R x y → P y.
Proof. intros Hstep Hx Hsteps. induction Hsteps; eauto. Qed.

(** What one step does to the three logs: a result is appended by a worker
    at line 183 only, and a target and the requests of its probe are
    logged by a worker at line 180 only. *)
Lemma step_logs config e s s' :
  step config e s = Some s' →
  (results s' = results s ∨
   ∃ i w r, workers s !! i = Some w ∧ pc w = AtAppend r ∧ results s' = results s ++ [r]) ∧
  ((probed s' = probed s ∧ sent s' = sent s) ∨
   ∃ i w net now, workers s !! i = Some w ∧ pc w = AtProbe ∧
     probed s' = probed s ++ [targetURL w] ∧
     sent s' = sent s ++ (testCORS net now (targetURL w) config).2).
Proof.
  destruct e as [| i net now | i j]; cbn [step].
  - unfold step_main. destruct (mainpc s) as [[|url rest] | | rs | msg]; try done.
    + intros [= <-]. proj_state. split; left; done.
    + intros [= <-]. proj_state. split; left; done.
    + case_bool_decide; [| done]. intros [= <-]. proj_state. split; left; done.
  - intros (_ & w & Hi & Hmove)%step_worker_Some. revert Hmove. unfold worker_move, crash.
    destruct (pc w) as [| | r | r | | p | p |] eqn:Hpcw.
    + case_bool_decide; [| done]. intros [= <-]. proj_state. split; left; done.
    + destruct (testCORS net now (targetURL w) config) as [out reqs] eqn:Ht.
      assert (reqs = (testCORS net now (targetURL w) config).2) as Hreqs by (by rewrite Ht).
      destruct out; intros [= <-]; proj_state; (split; [by left |]); right;
        exists i, w, net, now; rewrite <- Hreqs; done.
    + destruct (muLocked s); [done |]. intros [= <-]. proj_state. split; left; done.
    + intros [= <-]. proj_state. split; [right; by exists i, w, r | by left].
    + destruct (muLocked s); intros [= <-]; proj_state; split; left; done.
    + destruct (semLen s); [done |]. intros [= <-]. proj_state. split; left; done.
    + destruct (wgCount s); intros [= <-]; proj_state; split; left; done.
    + done.
  - unfold step_handoff. destruct (mainpc s); try done.
    all: destruct (workers s !! i) as [wi |]; [| done].
    all: destruct (workers s !! j) as [wj |]; [| done].
    all: destruct (pc wi); try done.
    all: destruct (pc wj); try done.
    all: destruct (semLen s); [| done].
    all: intros [= <-]; proj_state; split; left; done.
Qed.

(** The result list, the list of probed targets and the list of sent
    requests only ever grow at their end along a run: nothing already
    recorded is removed, changed or reordered. *)
Theorem bulk_logs_only_grow config s s' :
  rtc (bulk_step config) s s' →
  results s `prefix_of` results s' ∧
  probed s `prefix_of` probed s' ∧
  sent s `prefix_of` sent s'.
Proof.
  intros Hsteps. induction Hsteps as [s | s1 s2 s3 [e He] _ IH]; [done |].
  destruct IH as (Hr & Hp & Hs).
  destruct (step_logs _ _ _ _ He) as [Hres Hlog].
  split_and!.
  - etrans; [| exact Hr]. destruct Hres as [-> | (? & ? & r & _ & _ & ->)];
      [done | by apply prefix_app_r].
  - etrans; [| exact Hp]. destruct Hlog as [[-> _] | (? & ? & ? & ? & _ & _ & -> & _)];
      [done | by apply prefix_app_r].
  - etrans; [| exact Hs]. destruct Hlog as [[_ ->] | (? & ? & ? & ? & _ & _ & _ & ->)];
      [done | by apply prefix_app_r].
Qed.

Lemma worker_target_in_urls config urls s i w :
  Inv config urls s → workers s !! i = Some w → targetURL w ∈ urls.
Proof.
  intros HInv Hi. pose proof (inv_main _ _ _ HInv) as Hmain. unfold goodMain in Hmain.
  assert (targetURL w ∈ targetURL <$> workers s) as Hin.
  { apply list_elem_of_fmap. exists w. split; [done | by eapply list_elem_of_lookup_2]. }
  destruct (mainpc s); try done.
  - rewrite <- Hmain. apply elem_of_app. by left.
  - by rewrite <- Hmain.
  - destruct Hmain as [<- _]. done.
Qed.

Lemma select_length f ws : (length (select f ws) ≤ length ws)%nat.
Proof. unfold select. rewrite length_fmap. apply length_filter. Qed.

(** A probe sends at most one request, so the scan never sends more
    requests than it has probed targets, and it probes no more targets
    than it was given; when request construction succeeds for every target
    it has sent exactly one request per probed target; and when it returns
    it has probed every target. *)
Theorem bulk_scan_requests config urls s0 s :
  bulk_init config urls = Ret s0 → rtc (bulk_step config) s0 s →
  (length (sent s) ≤ length (probed s))%nat ∧
  (length (probed s) ≤ length urls)%nat ∧
  ((∀ u, u ∈ urls → ∃ req, buildRequest u config = Ok req) →
     length (sent s) = length (probed s)) ∧
  (∀ rs, mainpc s = Returned rs → length (probed s) = length urls).
Proof.
  intros Hinit Hsteps. pose proof (reachable_inv _ _ _ _ Hinit Hsteps) as HInv.
  assert (sent s0 = [] ∧ probed s0 = []) as [Hs0 Hp0].
  { revert Hinit. unfold bulk_init. destruct (Concurrency config <? 0)%Z; [done |].
    by intros [= <-]. }
  split_and!.
  - apply (rtc_invariant (bulk_step config)
             (λ s, length (sent s) ≤ length (probed s))%nat s0 s); [| | done].
    + intros a b Hle [e He].
      destruct (step_logs _ _ _ _ He) as [_ [[-> ->] | (i & w & net & now & _ & _ & -> & ->)]];
        [done |].
      pose proof (testCORS_sends_at_most_one net now (targetURL w) config).
      rewrite !length_app. cbn. lia.
    + by rewrite Hs0, Hp0.
  - pose proof (inv_probed _ _ _ HInv) as Hp. apply Permutation_length in Hp.
    rewrite Hp. etrans; [apply select_length |].
    pose proof (inv_main _ _ _ HInv) as Hmain. unfold goodMain in Hmain.
    destruct (mainpc s); try done.
    + rewrite <- Hmain, length_app, length_fmap. lia.
    + by rewrite <- Hmain, length_fmap.
    + destruct Hmain as [<- _]. by rewrite length_fmap.
  - intros Hbuild.
    apply (rtc_invariant (bulk_step config)
             (λ s, Inv config urls s ∧ length (sent s) = length (probed s)) s0 s);
      [| | done].
    + intros a b [HInva Heq] [e He]. split; [by eapply step_inv |].
      destruct (step_logs _ _ _ _ He) as [_ [[-> ->] | (i & w & net & now & Hi & _ & -> & ->)]];
        [done |].
      destruct (Hbuild (targetURL w)) as [req Hreq]; [by eapply worker_target_in_urls |].
      rewrite testCORS_closed, Hreq, !length_app.
      destruct (client_Do net _ req); cbn; lia.
    + split; [by apply bulk_init_inv | by rewrite Hs0, Hp0].
  - intros rs Hret.
    destruct (returned_facts _ _ _ _ HInv Hret) as (_ & _ & _ & _ & Hp & _).
    by apply Permutation_length in Hp.
Qed.

(** The mutex does its work: in every reachable state at most one worker
    is between [mu.Lock()] and [mu.Unlock()], the mutex is locked exactly
    when there is one, a worker at [mu.Unlock()] always finds it locked and
    unlocks it, and at the return it is unlocked. *)
Theorem bulk_scan_mutual_exclusion config urls s0 s :
  bulk_init config urls = Ret s0 → rtc (bulk_step config) s0 s →
  (countPC inCritical (workers s) ≤ 1)%nat ∧
  (muLocked s = true ↔ countPC inCritical (workers s) = 1%nat) ∧
  (∀ i j wi wj, workers s !! i = Some wi → workers s !! j = Some wj →
     inCritical (pc wi) = true → inCritical (pc wj) = true → i = j) ∧
  (∀ i w net now, workers s !! i = Some w → pc w = AtUnlock →
     muLocked s = true ∧
     ∃ s', step config (EvWorker i net now) s = Some s' ∧ muLocked s' = false ∧
           mainpc s' = mainpc s) ∧
  (∀ rs, mainpc s = Returned rs → muLocked s = false).
Proof.
  intros Hinit Hsteps. pose proof (reachable_inv _ _ _ _ Hinit Hsteps) as HInv.
  pose proof (inv_mu _ _ _ HInv) as Hmu.
  assert (countPC inCritical (workers s) ≤ 1)%nat as Hle.
  { rewrite <- Hmu. destruct (muLocked s); cbn; lia. }
  split_and!.
  - done.
  - destruct (muLocked s); cbn in Hmu; split; (done || lia).
  - intros i j wi wj Hi Hj Hci Hcj. destruct (decide (i = j)) as [| Hne]; [done |].
    pose proof (countPC_two inCritical Exited _ i j wi wj eq_refl Hne Hi Hj Hci Hcj). lia.
  - intros i w net now Hi Hpcw.
    assert (muLocked s = true) as Hlocked.
    { pose proof (countPC_lookup inCritical _ i w Hi) as Hpos. rewrite Hpcw in Hpos.
      specialize (Hpos eq_refl). destruct (muLocked s); [done | cbn in Hmu; lia]. }
    split; [done |]. eexists. split.
    + cbn [step]. apply step_worker_Some. split; [intros msg; by eapply never_crashed |].
      exists w. split; [done |]. unfold worker_move. rewrite Hpcw, Hlocked. reflexivity.
    + by proj_state.
  - intros rs Hret.
    destruct (returned_facts _ _ _ _ HInv Hret) as (_ & _ & Hexited & _).
    rewrite (countPC_none inCritical) in Hmu; [by destruct (muLocked s) |].
    intros i w Hi. by rewrite (Forall_lookup_1 _ _ _ _ Hexited Hi).
Qed.

(** The wait group counts the spawned workers that have not yet called
    [wg.Done()]; [wg.Wait()] lets the caller through exactly when all
    spawned workers have exited; and once the scan has returned no
    goroutine can take a step any more (no worker is left behind). *)
Theorem bulk_scan_waitgroup config urls s0 s :
  bulk_init config urls = Ret s0 → rtc (bulk_step config) s0 s →
  wgCount s = countPC running (workers s) ∧
  (mainpc s = AtWait →
     (is_Some (step config EvMain s) ↔ Forall (λ w, pc w = Exited) (workers s))) ∧
  (∀ rs, mainpc s = Returned rs → ∀ e, step config e s = None).
Proof.
  intros Hinit Hsteps. pose proof (reachable_inv _ _ _ _ Hinit Hsteps) as HInv.
  pose proof (inv_wg _ _ _ HInv) as Hwg.
  split_and!.
  - done.
  - intros Hwait. cbn [step]. unfold step_main. rewrite Hwait. split.
    + case_bool_decide as Hz; [| by intros [? ?]]. intros _.
      rewrite Hz in Hwg. symmetry in Hwg.
      apply Forall_lookup_2. intros i w Hi.
      pose proof (countPC_zero _ _ Hwg i w Hi). by destruct (pc w).
    + intros Hall. rewrite bool_decide_eq_true_2; [eauto |].
      rewrite Hwg. apply countPC_none. intros i w Hi.
      by rewrite (Forall_lookup_1 _ _ _ _ Hall Hi).
  - intros rs Hret e.
    destruct (returned_facts _ _ _ _ HInv Hret) as (_ & _ & Hexited & _).
    destruct e as [| i net now | i j]; cbn [step].
    + unfold step_main. by rewrite Hret.
    + destruct (step_worker config i net now s) as [s' |] eqn:Hs; [| done].
      apply step_worker_Some in Hs as (_ & w & Hi & Hmove). revert Hmove.
      unfold worker_move. by rewrite (Forall_lookup_1 _ _ _ _ Hexited Hi).
    + by eapply step_handoff_None.
Qed.





(** ** The report (lines 192-229) *)

Lemma foldl_append_blocks {A} (block : A → string) (l : list A) : ∀ out,
  foldl (λ out x, out +:+ block x) out l =
  out +:+ foldr (λ x rest, block x +:+ rest) "" l.
Proof.
  induction l as [|x l IH]; intros out; cbn [foldl foldr].
  - by rewrite append_nil_r.
  - by rewrite IH, append_assoc.
Qed.

(** The report is the concatenation of one block per result, in the order
    of the results; it is written only when the file can be created, and a
    failure to create it is returned whatever the results are. *)
Theorem saveResults_writes_blocks fs rs rs' filename :
  reportText rs = foldr (λ r rest, reportBlock r +:+ rest) "" rs ∧
  reportText (rs ++ rs') = reportText rs +:+ reportText rs' ∧
  (os_Create fs filename = None →
     saveResults fs (rs ++ rs') filename = Ok (reportText rs +:+ reportText rs')) ∧
  (∀ err, os_Create fs filename = Some err → saveResults fs rs filename = Err err).
Proof.
  assert (∀ l, reportText l = foldr (λ r rest, reportBlock r +:+ rest) "" l) as Hfold.
  { intros l. unfold reportText. by rewrite foldl_append_blocks. }
  assert (reportText (rs ++ rs') = reportText rs +:+ reportText rs') as Happ.
  { rewrite !Hfold, foldr_app. generalize (foldr (λ r rest, reportBlock r +:+ rest) "" rs').
    intros tail. induction rs as [|r rs IH]; [done |]. cbn [foldr].
    by rewrite IH, append_assoc. }
  unfold saveResults. split_and!; try done.
  - intros ->. by rewrite Happ.
  - by intros err ->.
Qed.

(** The block of a failed probe: separator, URL, timestamp, status code 0,
    has-CORS false, the error line, and an empty header section. *)
Theorem failed_probe_report_block net now targetURL config r :
  (testCORS net now targetURL config).1 = Ret r → Error r ≠ "" →
  reportBlock r =
    Repeat "=" 80 +:+ nl +:+
    "URL: " +:+ targetURL +:+ nl +:+
    "Timestamp: " +:+ now +:+ nl +:+
    "Status Code: 0" +:+ nl +:+
    "Has CORS: false" +:+ nl +:+
    "Error: " +:+ Error r +:+ nl +:+
    "All Headers:" +:+ nl +:+ nl.
Proof.
  intros Hr Herr.
  assert (∃ msg, r = failedResult targetURL now msg ∧ msg ≠ "") as (msg & -> & Hmsg).
  { rewrite testCORS_closed in Hr.
    destruct (buildRequest targetURL config) as [req | err].
    - destruct (client_Do net _ req) as [resp | err]; injection Hr as <-; [done |].
      eexists. split; [reflexivity | exact Herr].
    - injection Hr as <-. eexists. split; [reflexivity | exact Herr]. }
  unfold reportBlock, failedResult.
  cbn [URL Timestamp StatusCode HasCORS Error CORSHeaders Headers elems entries
       default from_option id length fmt_bool].
  rewrite (bool_decide_eq_false_2 (msg = "")) by done.
  rewrite (bool_decide_eq_false_2 (0 < 0)%nat) by lia.
  rewrite map_to_list_empty. cbn [foldl].
  change (pretty 0%Z) with "0".
  rewrite !append_assoc. reflexivity.
Qed.

(** ** [main] (lines 33-91) *)

(** In single-URL mode ([-url] given, with or without [-file]) every run
    probes exactly the given URL and nothing else, and never ends in a
    panic.  If the report file can be created the run ends with exit code
    0, a report of the one block of the probe's result and a summary with
    total 1; if not, it ends with exit code 1 and the error of
    [os.Create], without report and without summary.  Such a run exists. *)
Theorem main_single_url fs flags :
  showVersion flags = false → urlInput flags ≠ "" →
  (∃ e, main_run fs flags e) ∧
  (∀ e, main_run fs flags e →
     targetsProbed e = [urlInput flags] ∧
     match os_Create fs (outputFile flags) with
     | None =>
         exitCode e = 0%Z ∧ fatalMessage e = None ∧
         ∃ r, probeOf (main_config flags) (urlInput flags) r ∧
              reportWritten e = Some (outputFile flags, reportBlock r) ∧
              summaryPrinted e = Some (printSummary [r]) ∧
              sumTotal (printSummary [r]) = 1%Z
     | Some err =>
         exitCode e = 1%Z ∧
         fatalMessage e = Some ("Error saving results: " +:+ err) ∧
         reportWritten e = None ∧ summaryPrinted e = None
     end).
Proof.
  intros Hversion Hurl. split.
  - destruct (testCORS_returns deadNetwork "" (urlInput flags) (main_config flags))
      as (r & Hr & _).
    destruct (testCORS deadNetwork "" (urlInput flags) (main_config flags))
      as [out reqs] eqn:Ht. cbn in Hr. subst out.
    eexists. by eapply run_single.
  - intros e Hrun.
    inversion Hrun as [| | net now r reqs _ _ Ht | net now msg reqs _ _ Ht | | | |];
      subst; try congruence.
    + unfold main_finish, saveResults.
      destruct (os_Create fs (outputFile flags)) as [err |];
        cbn [exitCode fatalMessage reportWritten summaryPrinted targetsProbed]; [done |].
      split; [done |]. split_and!; try done.
      exists r. split_and!;
        [exists net, now; by rewrite Ht | done | done | by rewrite printSummary_closed].
    + destruct (testCORS_returns net now (urlInput flags) (main_config flags))
        as (r & Hr & _). rewrite Ht in Hr. done.
Qed.

(** The version flag wins over everything else, and a call without [-url]
    and [-file] only prints the usage: in both cases nothing is probed,
    written or summarised, with exit code 0 for the version and 1 for the
    usage. *)
Theorem main_version_and_usage fs flags e :
  main_run fs flags e →
  (showVersion flags = true → e = mkEnd 0 None None None []) ∧
  (showVersion flags = false → urlInput flags = "" → fileInput flags = "" →
     e = mkEnd 1 None None None []).
Proof.
  intros Hrun. split.
  - intros Hv. inversion Hrun; subst; congruence.
  - intros Hv Hu Hf. inversion Hrun; subst; congruence.
Qed.

(** In file mode with a readable file that holds at least one valid target
    and a concurrency limit of at least one, a run of [main] can complete,
    and every completed run has probed exactly the valid targets, each
    once.  If the report file can be created it ends with exit code 0, a
    report and a summary whose total is the number of valid targets;
    otherwise with exit code 1, the error of [os.Create], no report and no
    summary. *)
Theorem main_bulk_run fs flags urls :
  showVersion flags = false → urlInput flags = "" → fileInput flags ≠ "" →
  readTargets fs (fileInput flags) = Ret urls →
  (1 ≤ concurrency flags)%Z →
  (∃ e, main_run fs flags e) ∧
  (∀ e, main_run fs flags e →
     targetsProbed e ≡ₚ urls ∧
     match os_Create fs (outputFile flags) with
     | None =>
         exitCode e = 0%Z ∧ fatalMessage e = None ∧
         (∃ rs, URL <$> rs ≡ₚ urls ∧
                reportWritten e = Some (outputFile flags, reportText rs) ∧
                summaryPrinted e = Some (printSummary rs)) ∧
         (∃ sm, summaryPrinted e = Some sm ∧ sumTotal sm = Z.of_nat (length urls) ∧
                sumRate sm = RateQuotient (sumSuccessful sm) (sumTotal sm))
     | Some err =>
         exitCode e = 1%Z ∧
         fatalMessage e = Some ("Error saving results: " +:+ err) ∧
         reportWritten e = None ∧ summaryPrinted e = None
     end).
Proof.
  intros Hversion Hurl Hfile Hread Hpos.
  assert (urls ≠ []) as Hne by (by eapply readTargets_nonempty).
  assert (∃ s0, bulk_init (main_config flags) urls = Ret s0) as [s0 Hinit].
  { unfold bulk_init. cbn. destruct (concurrency flags <? 0)%Z eqn:Hneg; [lia | eauto]. }
  split.
  - destruct (eventually_returns (main_config flags) urls s0) as (s & rs & Hsteps & Hret).
    { by apply bulk_init_inv. }
    { rewrite (inv_cap _ _ _ (bulk_init_inv _ _ _ Hinit)). cbn. lia. }
    eexists. by eapply run_bulk.
  - intros e Hrun.
    inversion Hrun as [| | | | msg | urls' msg | urls' s0' s rs _ _ _ Hread' Hinit' Hsteps Hret
                       | urls' s0' s msg _ _ _ Hread' Hinit' Hsteps Hcrash];
      subst; try congruence.
    + rewrite Hread in Hread'. injection Hread' as <-.
      rewrite Hinit in Hinit'. injection Hinit' as <-.
      pose proof (reachable_inv _ _ _ _ Hinit Hsteps) as HInv.
      destruct (returned_facts _ _ _ _ HInv Hret) as (_ & _ & _ & Hperm & Hprobed & _).
      unfold main_finish, saveResults.
      destruct (os_Create fs (outputFile flags)) as [err |];
        cbn [exitCode fatalMessage reportWritten summaryPrinted targetsProbed]; [done |].
      split; [done |]. split_and!; try done.
      * by exists rs.
      * eexists. split; [reflexivity |]. rewrite printSummary_closed.
        cbn [sumTotal sumRate sumSuccessful].
        apply Permutation_length in Hperm. rewrite length_fmap in Hperm. rewrite Hperm.
        split; [done |].
        destruct (0 <? Z.of_nat (length urls))%Z eqn:Hlt; [done |].
        apply Z.ltb_ge in Hlt. destruct urls; [done | cbn [length] in Hlt; lia].
    + rewrite Hread in Hread'. injection Hread' as <-.
      rewrite Hinit in Hinit'. injection Hinit' as <-.
      exfalso. eapply never_crashed; [| exact Hcrash]. by eapply reachable_inv.
Qed.

(** ** The configuration built by [main] (lines 58-65) *)

(** Every request that [main]'s configuration sends carries the tool's
    user agent next to the spoofed origin and no other header, and uses the
    method of the command line, GET when that is empty; the method has
    passed the library's check. *)
Theorem main_request_headers flags net now targetURL req :
  CanonicalMIMEHeaderKey "User-Agent" ≠ CanonicalMIMEHeaderKey "Origin" →
  req ∈ (testCORS net now targetURL (main_config flags)).2 →
  Header_Get "User-Agent" req = "CORS-Testing-Tool/1.0" ∧
  dom (ReqHeader req) =
    ({[ CanonicalMIMEHeaderKey "User-Agent"; CanonicalMIMEHeaderKey "Origin" ]}
       : gset string) ∧
  ReqMethod req = (if bool_decide (method flags = "") then "GET" else method flags) ∧
  validMethod (ReqMethod req) = true.
Proof.
  intros Hkeys. rewrite testCORS_closed.
  destruct (buildRequest targetURL (main_config flags)) as [req' | err] eqn:Hreq.
  - intros Hin. assert (req = req') as ->.
    { destruct (client_Do net _ req'); cbn in Hin; by apply list_elem_of_singleton in Hin. }
    revert Hreq. unfold buildRequest, http_NewRequest, main_config.
    cbn [Method ConfigHeaders].
    destruct (validMethod _) eqn:Hvalid; [| done]. cbn [negb].
    destruct (url_Parse targetURL) as [u | e]; [| done].
    rewrite map_to_list_singleton. cbn [foldl fst snd].
    intros [= <-]. unfold Header_Get, Header_Set. cbn [ReqHeader ReqMethod].
    rewrite lookup_insert_ne by done. rewrite lookup_insert_eq.
    split_and!; try done.
    rewrite !dom_insert_L, dom_empty_L, (right_id_L ∅ (∪)). apply (comm_L (∪)).
  - cbn. by intros ?%elem_of_nil.
Qed.

(** The timeout handed to the HTTP client is the flag's number of seconds
    in nanoseconds as a signed 64-bit value: always within the 64-bit
    range, congruent to the product modulo [2^64], and equal to the product
    exactly for flags between -9223372036 and 9223372036 seconds. *)
Theorem main_config_timeout flags :
  (- 2 ^ 63 ≤ Timeout (main_config flags) < 2 ^ 63)%Z ∧
  ((Timeout (main_config flags) - timeout flags * 1000000000) mod 2 ^ 64 = 0)%Z ∧
  ((-9223372036 ≤ timeout flags ≤ 9223372036)%Z →
     Timeout (main_config flags) = (timeout flags * 1000000000)%Z) ∧
  ((9223372036 < timeout flags ∨ timeout flags < -9223372036)%Z →
     Timeout (main_config flags) ≠ (timeout flags * 1000000000)%Z).
Proof.
  unfold main_config, wrap64. cbn [Timeout].
  set (x := (timeout flags * 1000000000)%Z).
  pose proof (Z.mod_pos_bound (x + 2 ^ 63) (2 ^ 64) ltac:(lia)) as Hb.
  assert (- 2 ^ 63 ≤ (x + 2 ^ 63) mod 2 ^ 64 - 2 ^ 63 < 2 ^ 63)%Z as Hrange by lia.
  split; [exact Hrange |]. split; [| split].
  - rewrite (Z.mod_eq (x + 2 ^ 63) (2 ^ 64)) by lia.
    replace (x + 2 ^ 63 - 2 ^ 64 * ((x + 2 ^ 63) `div` 2 ^ 64) - 2 ^ 63 - x)%Z
      with ((- ((x + 2 ^ 63) `div` 2 ^ 64)) * 2 ^ 64)%Z by lia.
    apply Z.mod_mul. lia.
  - intros Hsmall. rewrite Z.mod_small; [lia |]. subst x. lia.
  - intros Hbig Heq. rewrite Heq in Hrange. subst x. lia.
Qed.

(** A method that the library rejects: every probe fails while the request
    is constructed, with the library's message in the error field, and
    nothing is sent; a bulk scan never sends a request and its summary
    counts no successful target and no target with CORS headers. *)
Theorem invalid_method_sends_nothing config :
  validMethod (if bool_decide (Method config = "") then "GET" else Method config) = false →
  (∀ net now u,
     ∃ r, testCORS net now u config = (Ret r, []) ∧
          Error r = "Error creating request: net/http: invalid method " +:+
                    strconv_Quote (if bool_decide (Method config = "") then "GET"
                                   else Method config)) ∧
  (∀ urls s0 s, bulk_init config urls = Ret s0 → rtc (bulk_step config) s0 s →
     sent s = [] ∧
     ∀ rs, mainpc s = Returned rs →
       sumSuccessful (printSummary rs) = 0%Z ∧ sumWithCORS (printSummary rs) = 0%Z).
Proof.
  intros Hbad.
  assert (∀ u, buildRequest u config =
               Err ("net/http: invalid method " +:+
                    strconv_Quote (if bool_decide (Method config = "") then "GET"
                                   else Method config))) as Hbuild.
  { intros u. unfold buildRequest, http_NewRequest. by rewrite Hbad. }
  assert (∀ net now u,
     ∃ r, testCORS net now u config = (Ret r, []) ∧
          Error r = "Error creating request: net/http: invalid method " +:+
                    strconv_Quote (if bool_decide (Method config = "") then "GET"
                                   else Method config) ∧
          HasCORS r = false) as Hprobe.
  { intros net now u. rewrite testCORS_closed, Hbuild. eexists. split; [reflexivity |]. done. }
  split.
  - intros net now u. destruct (Hprobe net now u) as (r & ? & ? & _). eauto.
  - intros urls s0 s Hinit Hsteps. split.
    + apply (rtc_invariant (bulk_step config) (λ s, sent s = []) s0 s); [| | done].
      * intros a b Ha [e He].
        destruct (step_logs _ _ _ _ He) as [_ [[_ ->] | (i & w & net & now & _ & _ & _ & ->)]];
          [done |].
        destruct (Hprobe net now (targetURL w)) as (r & -> & _). by rewrite Ha.
      * revert Hinit. unfold bulk_init. destruct (Concurrency config <? 0)%Z; [done |].
        by intros [= <-].
    + intros rs Hret. pose proof (reachable_inv _ _ _ _ Hinit Hsteps) as HInv.
      destruct (returned_facts _ _ _ _ HInv Hret) as (_ & _ & _ & _ & _ & _ & Hprobes).
      rewrite printSummary_closed. cbn [sumSuccessful sumWithCORS].
      assert (filter succeeded rs = [] ∧ filter flagged rs = []) as Hnone.
      { clear Hret HInv.
        induction Hprobes as [| r l (net & now & Hr) _ [IH1 IH2]]; [done |].
        destruct (Hprobe net now (URL r)) as (r' & Ht & Herr & Hflag).
        rewrite Ht in Hr. injection Hr as ->.
        rewrite !filter_cons, IH1, IH2.
        rewrite (decide_False (P := succeeded r)) by (unfold succeeded; by rewrite Herr).
        rewrite (decide_False (P := flagged r)) by (unfold flagged; by rewrite Hflag).
        done. }
      destruct Hnone as [-> ->]. done.
Qed.

(** ** [isCORSHeader] (lines 257-273) *)

Lemma append_length_ge pre s post :
  (String.length s ≤ String.length (pre +:+ s +:+ post))%nat.
Proof. rewrite !append_length. lia. Qed.

(** The test is a substring test: a name that embeds a name that passes
    also passes, whatever surrounds it; a name shorter than 22 bytes never
    passes; and two ASCII names that differ only in letter case are treated
    alike once lower-cased. *)
Theorem isCORSHeader_substring header :
  (isCORSHeader header = true →
     ∀ pre post, isCORSHeader (pre +:+ header +:+ post) = true) ∧
  (isCORSHeader header = true → (22 ≤ String.length header)%nat) ∧
  (∀ other, isASCII header = true → isASCII other = true →
     lowerBytes header = lowerBytes other →
     isCORSHeader (ToLower header) = isCORSHeader (ToLower other)).
Proof.
  unfold isCORSHeader. split_and!.
  - intros (c & Hin & (a & b & ->)%Contains_spec)%isCORSHeader_loop_spec pre post.
    apply isCORSHeader_loop_spec. exists c. split; [done |].
    apply Contains_spec. exists (pre +:+ a), (b +:+ post).
    by rewrite !append_assoc.
  - intros (c & Hin & (a & b & ->)%Contains_spec)%isCORSHeader_loop_spec.
    etrans; [| apply append_length_ge]. unfold corsHeaders in Hin.
    repeat (apply elem_of_cons in Hin as [-> | Hin]; [cbn; lia |]).
    by apply elem_of_nil in Hin.
  - intros other Ha Hb Heq. unfold ToLower. by rewrite Ha, Hb, Heq.
Qed.

(** ** Trimming a line (line 154) *)

Lemma dropRightASCII_ascii s :
  isASCII s = true →
  ∃ t post,
    dropRightASCII s = (t, false) ∧ s = t +:+ post ∧
    allBytes asciiSpace post = true ∧
    (∀ c, lastByte t = Some c → asciiSpace c = false) ∧
    isASCII t = true.
Proof.
  induction s as [|c s IH]; intros Hascii.
  - by exists "", "".
  - cbn [isASCII] in Hascii. apply andb_true_iff in Hascii as [Hc Hs].
    destruct (IH Hs) as (t & post & Hdrop & -> & Hpost & Hlast & Ht).
    cbn [dropRightASCII]. rewrite Hdrop. destruct t as [|a t].
    + rewrite Hc. cbn [negb]. destruct (asciiSpace c) eqn:Hsp.
      * exists "", (String c post). split_and!; try done. cbn. by rewrite Hsp, Hpost.
      * exists (String c ""), post. split_and!; try done.
        -- by intros c' [= <-].
        -- cbn. by rewrite Hc.
    + exists (String c (String a t)), post. split_and!; try done.
      cbn [isASCII] in *. by rewrite Hc, Ht.
Qed.

Lemma dropRightASCII_fixed t :
  isASCII t = true → (∀ c, lastByte t = Some c → asciiSpace c = false) →
  dropRightASCII t = (t, false).
Proof.
  induction t as [|c t IH]; intros Hascii Hlast; [done |].
  cbn [isASCII] in Hascii. apply andb_true_iff in Hascii as [Hc Ht].
  cbn [dropRightASCII]. destruct t as [|a t].
  - cbn. rewrite Hc, (Hlast c eq_refl). done.
  - rewrite IH; [done | done |]. intros c' Hc'. by apply Hlast.
Qed.

(** For a line of ASCII bytes, the text tested and stored at lines 154-156
    is the line without its leading and trailing ASCII white space and
    nothing else changed: it neither starts nor ends with white space,
    trimming it again changes nothing, and so the line and its trimmed
    text are collected alike. *)
Theorem scheduled_target_is_trimmed_line urls line :
  isASCII line = true →
  (∃ pre post,
     line = pre +:+ TrimSpace line +:+ post ∧
     allBytes asciiSpace pre = true ∧ allBytes asciiSpace post = true) ∧
  trimmed (TrimSpace line) ∧
  TrimSpace (TrimSpace line) = TrimSpace line ∧
  (collectLine urls line = urls ∨ collectLine urls line = urls ++ [TrimSpace line]) ∧
  collectLine urls (TrimSpace line) = collectLine urls line.
Proof.
  intros Hascii.
  assert ((∃ pre post,
             line = pre +:+ TrimSpace line +:+ post ∧
             allBytes asciiSpace pre = true ∧ allBytes asciiSpace post = true) ∧
          trimmed (TrimSpace line) ∧
          TrimSpace (TrimSpace line) = TrimSpace line) as (Hparts & Htrimmed & Hidem).
  { induction line as [|c line IH]; [by split_and!; [exists "", "" | |] |].
    pose proof Hascii as Hall.
    cbn [isASCII] in Hascii. apply andb_true_iff in Hascii as [Hc Hline].
    cbn [TrimSpace]. rewrite Hc. cbn [negb]. destruct (asciiSpace c) eqn:Hsp.
    - destruct (IH Hline) as ((pre & post & Heq & Hpre & Hpost) & Htr & Hid).
      split_and!; try done. exists (String c pre), post. split_and!; try done.
      + change (String c line = String c (pre +:+ TrimSpace line +:+ post)). by rewrite <- Heq.
      + cbn. by rewrite Hsp, Hpre.
    - destruct (dropRightASCII_ascii _ Hall) as (t & post & Hdrop & Heq & Hpost & Hlast & Ht).
      rewrite Hdrop.
      assert (∃ t0, t = String c t0) as [t0 ->].
      { destruct t as [|c' t0].
        - change ("" +:+ post) with post in Heq. subst post.
          cbn [allBytes] in Hpost. by rewrite Hsp in Hpost.
        - change (String c' t0 +:+ post) with (String c' (t0 +:+ post)) in Heq.
          injection Heq as -> _. by exists t0. }
      split_and!.
      + exists "", post. by split_and!.
      + split; [by intros c' [= <-] | done].
      + cbn [TrimSpace]. rewrite Hc, Hsp. cbn [negb].
        by rewrite (dropRightASCII_fixed _ Ht Hlast). }
  split_and!; try done.
  - unfold collectLine. destruct (_ && _); eauto.
  - unfold collectLine. by rewrite Hidem.
Qed.


End Extras.

(** * The program at concrete inputs *)

#[local] Existing Instance sampleLib.

(** The scan of two targets with limit 2, each worker run to its end in
    turn, returns two results, one per target. *)
Lemma bulk_scan_one_result_per_target_witness :
  ∃ s0 s rs,
    bulk_init (sampleConfig 2) sampleTargets = Ret s0 ∧
    run (sampleConfig 2) (sequential [corsServer; deadNetwork]) s0 = Some s ∧
    mainpc s = Returned rs ∧
    length rs = 2%nat ∧
    URL <$> rs ≡ₚ sampleTargets.
Proof.
  exists (mkState (Spawning sampleTargets) [] 0 2 false 0 [] [] []).
  destruct (run (sampleConfig 2) (sequential [corsServer; deadNetwork])
              (mkState (Spawning sampleTargets) [] 0 2 false 0 [] [] []))
    as [s |] eqn:Hrun; [| vm_compute in Hrun; discriminate].
  pose proof (run_rtc _ _ _ _ Hrun) as Hsteps.
  assert (∃ rs, mainpc s = Returned rs) as [rs Hret].
  { vm_compute in Hrun. injection Hrun as <-. eexists. reflexivity. }
  exists s, rs.
  destruct (bulk_scan_one_result_per_target (sampleConfig 2) sampleTargets
              (mkState (Spawning sampleTargets) [] 0 2 false 0 [] [] []) eq_refl)
    as (Hsafe & _).
  destruct (Hsafe s rs Hsteps Hret) as (Hlen & Hperm & _).
  split_and!; done.
Defined.

(** A 404 answer is not recorded as a failure: the error field stays empty
    and the status code and headers of the answer are kept. *)
Lemma non2xx_response_is_not_a_failure :
  ∃ r,
    (testCORS notFoundServer sampleNow "http://a.test/x" (sampleConfig 2)).1 = Ret r ∧
    StatusCode r = 404%Z ∧
    Error r = "" ∧
    Headers r = Some {[ "Content-Type" := "text/html" ]} ∧
    ¬ (Error r ≠ "" ∧ StatusCode r = 0%Z ∧ Headers r = Some ∅).
Proof.
  eexists. split; [vm_compute; reflexivity |].
  split; [reflexivity |]. split; [reflexivity |]. split; [by vm_compute |].
  intros (Herr & _). by apply Herr.
Qed.

(** The answer of [corsServer] is recorded with both CORS header names. *)
Lemma testCORS_records_headers_witness :
  ∃ r,
    (testCORS corsServer sampleNow "http://a.test/x" (sampleConfig 2)).1 = Ret r ∧
    HasCORS r = true ∧
    "Access-Control-Allow-Origin" ∈ elems (CORSHeaders r) ∧
    entries (Headers r) !! "Vary" = Some "Origin, Accept".
Proof.
  destruct (buildRequest "http://a.test/x" (sampleConfig 2)) as [req | err] eqn:Hreq;
    [| vm_compute in Hreq; discriminate].
  destruct (testCORS_records_headers corsServer sampleNow "http://a.test/x"
              (sampleConfig 2) req
              (mkResponse 200 {[ "Access-Control-Allow-Origin" := ["*"];
                                 "Access-Control-Allow-Credentials" := ["true"];
                                 "Vary" := ["Origin"; "Accept"] ]})
              Hreq eq_refl)
    as (r & Hrun & _ & _ & Hcopy & Hflag & _).
  exists r. split; [by rewrite Hrun |].
  destruct (Hflag "Access-Control-Allow-Origin") as [Hcors Hin].
  { by vm_compute; eexists. }
  { exists "access-control-allow-origin". split; [left |]. by exists "", "". }
  split_and!; [done | done |]. apply (Hcopy "Vary" ["Origin"; "Accept"]). by vm_compute.
Defined.

(** The request for [http://a.test/x] carries the origin
    [http://a.test-test.cors.com]. *)
Lemma testCORS_spoofed_origin_witness :
  ∃ req,
    req ∈ (testCORS corsServer sampleNow "http://a.test/x" (sampleConfig 2)).2 ∧
    Header_Get "Origin" req = "http://a.test-test.cors.com" ∧
    Header_Get "Origin" req ≠ "http://a.test".
Proof.
  destruct (testCORS corsServer sampleNow "http://a.test/x" (sampleConfig 2)).2
    as [| req sent] eqn:Hsent; [vm_compute in Hsent; discriminate |].
  exists req. split; [left |].
  destruct (testCORS_spoofed_origin corsServer sampleNow "http://a.test/x"
              (sampleConfig 2) req) as (u & Hu & Horigin & Hne).
  { rewrite Hsent. left. }
  vm_compute in Hu. injection Hu as <-. split; [exact Horigin | exact Hne].
Defined.

(** With limit 1, once the first worker is inside [testCORS] the second one
    is held at the semaphore. *)
Lemma bulk_scan_bounded_concurrency_witness :
  ∃ s,
    run (sampleConfig 1) [EvMain; EvMain; EvWorker 0 corsServer sampleNow]
        (mkState (Spawning sampleTargets) [] 0 1 false 0 [] [] []) = Some s ∧
    countPC probing (workers s) = 1%nat ∧
    step (sampleConfig 1) (EvWorker 1 corsServer sampleNow) s = None ∧
    (Z.of_nat (countPC holdsSlot (workers s)) ≤ 1)%Z.
Proof.
  destruct (run (sampleConfig 1) [EvMain; EvMain; EvWorker 0 corsServer sampleNow]
              (mkState (Spawning sampleTargets) [] 0 1 false 0 [] [] []))
    as [s |] eqn:Hrun; [| vm_compute in Hrun; discriminate].
  exists s. split; [done |].
  destruct (bulk_scan_bounded_concurrency (sampleConfig 1) sampleTargets
              (mkState (Spawning sampleTargets) [] 0 1 false 0 [] [] []) s eq_refl
              (run_rtc _ _ _ _ Hrun)) as (_ & _ & Hbound & _).
  vm_compute in Hrun. injection Hrun as <-.
  split; [reflexivity |]. split; [reflexivity | exact Hbound].
Defined.

Lemma no_valid_url_is_fatal_witness :
  main_run sampleFS sampleFlags
           (mkEnd 1 (Some "No valid URLs found in file") None None []) ∧
  ∀ e, main_run sampleFS sampleFlags e → reportWritten e = None.
Proof.
  destruct (no_valid_url_is_fatal sampleFS sampleFlags
              (mkScanned [""; "   "; "not a url"] None))
    as ((msg & Hread & _ & Hmsg & Hrun & Honly) & _);
    [reflexivity | reflexivity | done | reflexivity | reflexivity |].
  rewrite (Hmsg eq_refl) in *. split; [exact Hrun |].
  intros e He. by rewrite (Honly e He).
Defined.

(** An unreachable host: the error is recorded, nothing else. *)
Lemma testCORS_absorbs_failures_witness :
  ∃ r,
    (testCORS deadNetwork sampleNow "http://b.test/" (sampleConfig 2)).1 = Ret r ∧
    Error r = "Request failed: dial tcp: connection refused" ∧
    StatusCode r = 0%Z ∧
    Headers r = Some ∅.
Proof.
  destruct (testCORS_absorbs_failures deadNetwork sampleNow "http://b.test/"
              (sampleConfig 2)) as (r & Hrun & _ & _ & _ & _ & Hdown & _).
  exists r. split; [exact Hrun |].
  destruct (buildRequest "http://b.test/" (sampleConfig 2)) as [req | err] eqn:Hreq;
    [| vm_compute in Hreq; discriminate].
  destruct (Hdown req "dial tcp: connection refused" eq_refl eq_refl)
    as (Herr & Hcode & Hheaders & _).
  done.
Defined.

(** A failed result after a successful one: total 2, successful 1. *)
Lemma printSummary_counts_witness :
  let ok := failedResult "http://a.test/" sampleNow "" in
  let failed := failedResult "http://b.test/" sampleNow "Request failed: timeout" in
  sumTotal (printSummary [ok; failed]) = 2%Z ∧
  sumSuccessful (printSummary [ok; failed]) = 1%Z ∧
  sumTotal (printSummary [ok; failed]) = (sumTotal (printSummary [ok]) + 1)%Z ∧
  sumSuccessful (printSummary [ok; failed]) = sumSuccessful (printSummary [ok]).
Proof.
  intros ok failed.
  destruct (printSummary_counts [ok; failed]) as (Htotal & Hsucc & _ & _ & _ & Hfailed).
  destruct (Hfailed [ok] failed [] eq_refl) as [Ht Hs]; [done |].
  split_and!; [exact Htotal | exact Hsucc | exact Ht | exact Hs].
Defined.

(** A padded valid line is scheduled, a line without scheme is not. *)
Lemma collectURLs_schedules_valid_lines_witness :
  let lines := [""; "  http://a.test/ "; "/only/a/path"] in
  TrimSpace "  http://a.test/ " ∈ collectURLs lines ∧
  ¬ TrimSpace "/only/a/path" ∈ collectURLs lines.
Proof.
  intros lines.
  destruct (collectURLs_schedules_valid_lines lines) as (_ & Hiff & _).
  split.
  - apply Hiff; [right; left |]. split; [done |]. vm_compute. by split.
  - intros Hin. apply Hiff in Hin; [| do 2 right; left].
    destruct Hin as [_ Hparsed]. vm_compute in Hparsed. by destruct Hparsed.
Defined.

(** With limit 0 and two targets, after both workers are spawned nothing
    can move and the scan has not returned. *)
Lemma zero_concurrency_blocks_forever_witness :
  ∃ s,
    run (sampleConfig 0) [EvMain; EvMain; EvMain]
        (mkState (Spawning sampleTargets) [] 0 0 false 0 [] [] []) = Some s ∧
    mainpc s = AtWait ∧
    (∀ rs, mainpc s ≠ Returned rs) ∧
    (∀ i net now, step (sampleConfig 0) (EvWorker i net now) s = None) ∧
    step (sampleConfig 0) EvMain s = None.
Proof.
  destruct (run (sampleConfig 0) [EvMain; EvMain; EvMain]
              (mkState (Spawning sampleTargets) [] 0 0 false 0 [] [] []))
    as [s |] eqn:Hrun; [| vm_compute in Hrun; discriminate].
  exists s. split; [done |].
  destruct (zero_concurrency_blocks_forever sampleFlags) as (_ & Hblocked & _).
  destruct (Hblocked (sampleConfig 0) sampleTargets
              (mkState (Spawning sampleTargets) [] 0 0 false 0 [] [] []) s
              eq_refl ltac:(done) eq_refl (run_rtc _ _ _ _ Hrun))
    as (Hnoret & _ & Hworkers & _).
  vm_compute in Hrun. injection Hrun as <-.
  split_and!; [reflexivity | exact Hnoret | exact Hworkers | reflexivity].
Defined.

(** The scenario of two targets, one answering with CORS headers and one
    unreachable: two results, one successful, one with CORS headers. *)
Example summary_of_sample_scan :
  ∃ s rs,
    run (sampleConfig 2) (sequential [corsServer; deadNetwork])
        (mkState (Spawning sampleTargets) [] 0 2 false 0 [] [] []) = Some s ∧
    mainpc s = Returned rs ∧
    printSummary rs = mkSummary 2 1 1 (RateQuotient 1 2).
Proof.
  eexists _, _. split; [vm_compute; reflexivity |]. split; reflexivity.
Qed.

(** Case is ignored in header names, and so is the rest of the name. *)
Example isCORSHeader_examples :
  isCORSHeader (ToLower "ACCESS-Control-Allow-ORIGIN") = true ∧
  isCORSHeader (ToLower "X-Access-Control-Max-Age-Hint") = true ∧
  isCORSHeader (ToLower "Access-Control-Request-Method") = false ∧
  isCORSHeader (ToLower "Content-Type") = false.
Proof. by vm_compute. Qed.

(** Lines are trimmed before they are tested. *)
Example collectURLs_example :
  collectURLs [""; "  http://a.test/ "; "nonsense"; "http://b.test"; "/only/a/path"] =
  ["http://a.test/"; "http://b.test"].
Proof. by vm_compute. Qed.

(** The defaults of the command line: GET, five workers, ten seconds. *)
Example main_config_defaults :
  Method (main_config defaultFlags) = "GET" ∧
  Concurrency (main_config defaultFlags) = 5%Z ∧
  Timeout (main_config defaultFlags) = 10000000000%Z.
Proof. by vm_compute. Qed.

(** A negative limit makes [make] panic before any worker is spawned. *)
Example negative_limit_panics :
  bulk_init (sampleConfig (-1)) sampleTargets = Panic "makechan: size out of range".
Proof. reflexivity. Qed.

(** The results are appended in the order in which the workers reach line
    183, not in the order of the targets: here the second worker runs
    first. *)
Example results_follow_the_schedule :
  ∃ s rs,
    run (sampleConfig 2)
        ([EvMain; EvMain; EvMain] ++ workerRun 1 deadNetwork ++ workerRun 0 corsServer
         ++ [EvMain])
        (mkState (Spawning sampleTargets) [] 0 2 false 0 [] [] []) = Some s ∧
    mainpc s = Returned rs ∧
    URL <$> rs = ["http://b.test/"; "http://a.test/"].
Proof.
  eexists _, _. split; [vm_compute; reflexivity |]. split; reflexivity.
Qed.

(** ** The further properties at concrete inputs *)

Lemma collected_target_is_probed_witness :
  ∃ req,
    (testCORS corsServer sampleNow "http://a.test/" (sampleConfig 2)).2 = [req] ∧
    Header_Get "Origin" req = "http://a.test-test.cors.com".
Proof.
  destruct (collected_target_is_probed [" http://a.test/ "; "nonsense"] (sampleConfig 2)
              "http://a.test/" corsServer sampleNow)
    as (parsed & req & Hparse & _ & _ & _ & Horigin & Hsent).
  { assert (collectURLs [" http://a.test/ "; "nonsense"] = ["http://a.test/"]) as ->
      by (by vm_compute). left. }
  { reflexivity. }
  exists req. split; [exact Hsent |].
  vm_compute in Hparse. injection Hparse as <-. exact Horigin.
Defined.

Lemma main_file_errors_are_fatal_witness :
  main_run noFileFS sampleFlags
    (mkEnd 1 (Some "Error opening file: open urls.txt: no such file or directory")
           None None []).
Proof.
  destruct (main_file_errors_are_fatal noFileFS sampleFlags) as [Hopen _];
    [reflexivity | reflexivity | done |].
  destruct (Hopen "open urls.txt: no such file or directory" eq_refl) as [Hrun _].
  exact Hrun.
Defined.

Lemma testCORS_error_excludes_data_witness :
  ∃ r,
    (testCORS deadNetwork sampleNow "http://b.test/" (sampleConfig 2)).1 = Ret r ∧
    StatusCode r = 0%Z ∧ HasCORS r = false ∧ CORSHeaders r = Some [].
Proof.
  destruct (testCORS_returns deadNetwork sampleNow "http://b.test/" (sampleConfig 2))
    as (r & Hr & _).
  destruct (testCORS_error_excludes_data _ _ _ _ r Hr) as (_ & _ & Hfailed & _).
  exists r. split; [exact Hr |].
  destruct Hfailed as (Hcode & _ & Hflag & Hlist & _).
  { vm_compute in Hr. injection Hr as <-. done. }
  done.
Defined.

Lemma testCORS_cors_headers_have_values_witness :
  ∃ r,
    (testCORS corsServer sampleNow "http://a.test/x" (sampleConfig 2)).1 = Ret r ∧
    ∀ key, key ∈ elems (CORSHeaders r) → is_Some (entries (Headers r) !! key).
Proof.
  destruct (testCORS_returns corsServer sampleNow "http://a.test/x" (sampleConfig 2))
    as (r & Hr & _).
  destruct (testCORS_cors_headers_have_values _ _ _ _ r Hr) as (Hvalues & _).
  exists r. split; [exact Hr | exact Hvalues].
Defined.

Lemma printSummary_permutation_witness :
  let ok := failedResult "http://a.test/" sampleNow "" in
  let failed := failedResult "http://b.test/" sampleNow "Request failed: timeout" in
  printSummary [ok; failed] = printSummary [failed; ok].
Proof. intros ok failed. apply printSummary_permutation. apply perm_swap. Defined.

Lemma bulk_logs_only_grow_witness :
  ∃ s s',
    run (sampleConfig 2) ([EvMain; EvMain] ++ workerRun 0 corsServer) (sampleInit 2)
      = Some s ∧
    run (sampleConfig 2) ([EvMain] ++ workerRun 1 deadNetwork ++ [EvMain]) s = Some s' ∧
    results s `prefix_of` results s' ∧ probed s `prefix_of` probed s'.
Proof.
  destruct (run (sampleConfig 2) ([EvMain; EvMain] ++ workerRun 0 corsServer)
              (sampleInit 2)) as [s |] eqn:Hrun; [| vm_compute in Hrun; discriminate].
  destruct (run (sampleConfig 2) ([EvMain] ++ workerRun 1 deadNetwork ++ [EvMain]) s)
    as [s' |] eqn:Hrun';
    [| vm_compute in Hrun; injection Hrun as <-; vm_compute in Hrun'; discriminate].
  exists s, s'. split; [done |]. split; [done |].
  destruct (bulk_logs_only_grow (sampleConfig 2) s s' (run_rtc _ _ _ _ Hrun'))
    as (Hr & Hp & _).
  split; [exact Hr | exact Hp].
Defined.

Lemma bulk_scan_requests_witness :
  ∃ s,
    run (sampleConfig 2) (sequential [corsServer; deadNetwork]) (sampleInit 2) = Some s ∧
    (length (sent s) ≤ length (probed s))%nat ∧
    length (sent s) = length (probed s).
Proof.
  destruct (run (sampleConfig 2) (sequential [corsServer; deadNetwork]) (sampleInit 2))
    as [s |] eqn:Hrun; [| vm_compute in Hrun; discriminate].
  exists s. split; [done |].
  destruct (bulk_scan_requests (sampleConfig 2) sampleTargets (sampleInit 2) s eq_refl
              (run_rtc _ _ _ _ Hrun)) as (Hle & _ & Heq & _).
  split; [exact Hle |]. apply Heq.
  intros u Hu. unfold sampleTargets in Hu.
  apply elem_of_cons in Hu as [-> | Hu]; [by vm_compute; eexists |].
  apply list_elem_of_singleton in Hu as ->. by vm_compute; eexists.
Defined.

Lemma bulk_scan_mutual_exclusion_witness :
  ∃ s,
    run (sampleConfig 2)
        [EvMain; EvMain; EvWorker 0 corsServer sampleNow; EvWorker 0 corsServer sampleNow;
         EvWorker 1 deadNetwork sampleNow; EvWorker 1 deadNetwork sampleNow;
         EvWorker 0 corsServer sampleNow]
        (sampleInit 2) = Some s ∧
    muLocked s = true ∧
    step (sampleConfig 2) (EvWorker 1 deadNetwork sampleNow) s = None ∧
    (countPC inCritical (workers s) ≤ 1)%nat.
Proof.
  destruct (run (sampleConfig 2)
              [EvMain; EvMain; EvWorker 0 corsServer sampleNow;
               EvWorker 0 corsServer sampleNow; EvWorker 1 deadNetwork sampleNow;
               EvWorker 1 deadNetwork sampleNow; EvWorker 0 corsServer sampleNow]
              (sampleInit 2)) as [s |] eqn:Hrun; [| vm_compute in Hrun; discriminate].
  exists s. split; [done |].
  destruct (bulk_scan_mutual_exclusion (sampleConfig 2) sampleTargets (sampleInit 2) s
              eq_refl (run_rtc _ _ _ _ Hrun)) as (Hle & _).
  vm_compute in Hrun. injection Hrun as <-.
  split; [reflexivity |]. split; [reflexivity | exact Hle].
Defined.

Lemma bulk_scan_waitgroup_witness :
  ∃ s rs,
    run (sampleConfig 2) (sequential [corsServer; deadNetwork]) (sampleInit 2) = Some s ∧
    mainpc s = Returned rs ∧
    wgCount s = 0%nat ∧
    ∀ e, step (sampleConfig 2) e s = None.
Proof.
  destruct (run (sampleConfig 2) (sequential [corsServer; deadNetwork]) (sampleInit 2))
    as [s |] eqn:Hrun; [| vm_compute in Hrun; discriminate].
  assert (∃ rs, mainpc s = Returned rs ∧ wgCount s = 0%nat) as (rs & Hret & Hwg).
  { vm_compute in Hrun. injection Hrun as <-. eexists. split; reflexivity. }
  exists s, rs. split; [done |]. split; [done |]. split; [done |].
  destruct (bulk_scan_waitgroup (sampleConfig 2) sampleTargets (sampleInit 2) s eq_refl
              (run_rtc _ _ _ _ Hrun)) as (_ & _ & Hterminal).
  exact (Hterminal rs Hret).
Defined.


Lemma failed_probe_report_block_witness :
  ∃ r,
    (testCORS deadNetwork sampleNow "http://b.test/" (sampleConfig 2)).1 = Ret r ∧
    reportBlock r =
      Repeat "=" 80 +:+ nl +:+
      "URL: http://b.test/" +:+ nl +:+
      "Timestamp: 2026-01-01T00:00:00Z" +:+ nl +:+
      "Status Code: 0" +:+ nl +:+
      "Has CORS: false" +:+ nl +:+
      "Error: Request failed: dial tcp: connection refused" +:+ nl +:+
      "All Headers:" +:+ nl +:+ nl.
Proof.
  destruct (testCORS_returns deadNetwork sampleNow "http://b.test/" (sampleConfig 2))
    as (r & Hr & _).
  exists r. split; [exact Hr |].
  rewrite (failed_probe_report_block _ _ _ _ r Hr).
  - vm_compute in Hr. injection Hr as <-. reflexivity.
  - vm_compute in Hr. injection Hr as <-. done.
Defined.

Lemma main_single_url_witness :
  (∃ e, main_run sampleFS singleFlags e) ∧
  (∀ e, main_run sampleFS singleFlags e →
     targetsProbed e = ["http://a.test/"] ∧ exitCode e = 0%Z).
Proof.
  destruct (main_single_url sampleFS singleFlags) as [Hex Hall]; [reflexivity | done |].
  split; [exact Hex |]. intros e Hrun.
  destruct (Hall e Hrun) as [Hprobed Hend].
  change (os_Create sampleFS (outputFile singleFlags)) with (@None string) in Hend.
  destruct Hend as (Hcode & _). split; [exact Hprobed | exact Hcode].
Defined.

Lemma main_version_and_usage_witness :
  main_run sampleFS versionFlags (mkEnd 0 None None None []) ∧
  ∀ e, main_run sampleFS versionFlags e → targetsProbed e = [] ∧ reportWritten e = None.
Proof.
  split; [by apply run_version |]. intros e Hrun.
  destruct (main_version_and_usage sampleFS versionFlags e Hrun) as [Hversion _].
  by rewrite (Hversion eq_refl).
Defined.

Lemma main_bulk_run_witness :
  (∃ e, main_run twoTargetsFS sampleFlags e) ∧
  (∀ e, main_run twoTargetsFS sampleFlags e →
     targetsProbed e ≡ₚ sampleTargets ∧ exitCode e = 0%Z).
Proof.
  destruct (main_bulk_run twoTargetsFS sampleFlags sampleTargets) as [Hex Hall];
    [reflexivity | reflexivity | done | by vm_compute | done |].
  split; [exact Hex |]. intros e Hrun.
  destruct (Hall e Hrun) as [Hprobed Hend].
  change (os_Create twoTargetsFS (outputFile sampleFlags)) with (@None string) in Hend.
  destruct Hend as (Hcode & _). split; [exact Hprobed | exact Hcode].
Defined.

Lemma main_request_headers_witness :
  ∃ req,
    (testCORS corsServer sampleNow "http://a.test/x" (sampleConfig 2)).2 = [req] ∧
    Header_Get "User-Agent" req = "CORS-Testing-Tool/1.0" ∧
    ReqMethod req = "GET".
Proof.
  destruct (testCORS corsServer sampleNow "http://a.test/x" (sampleConfig 2)).2
    as [| req sent] eqn:Hsent; [vm_compute in Hsent; discriminate |].
  assert (sent = []) as ->.
  { vm_compute in Hsent. by injection Hsent as _ <-. }
  exists req. split; [done |].
  destruct (main_request_headers
              (mkFlags "" "urls.txt" "cors_results.txt" "GET" 2 10 false false)
              corsServer sampleNow "http://a.test/x" req) as (Hua & _ & Hmethod & _).
  { by vm_compute. }
  { change (main_config _) with (sampleConfig 2). rewrite Hsent. left. }
  split; [exact Hua | exact Hmethod].
Defined.

Lemma invalid_method_sends_nothing_witness :
  ∃ r,
    testCORS corsServer sampleNow "http://a.test/" badMethodConfig = (Ret r, []) ∧
    Error r = "Error creating request: net/http: invalid method BAD METHOD".
Proof.
  destruct (invalid_method_sends_nothing badMethodConfig) as [Hprobe _]; [reflexivity |].
  destruct (Hprobe corsServer sampleNow "http://a.test/") as (r & Hrun & Herr).
  exists r. split; [exact Hrun | exact Herr].
Defined.

Lemma scheduled_target_is_trimmed_line_witness :
  TrimSpace "  http://a.test/ " = "http://a.test/" ∧
  trimmed (TrimSpace "  http://a.test/ ") ∧
  TrimSpace (TrimSpace "  http://a.test/ ") = TrimSpace "  http://a.test/ ".
Proof.
  destruct (scheduled_target_is_trimmed_line [] "  http://a.test/ " eq_refl)
    as (_ & Htrimmed & Hidem & _).
  split; [reflexivity |]. split; [exact Htrimmed | exact Hidem].
Defined.
